(** * Pixel-state engine of the hex acoustic panel colour server

    A shallow embedding of [firmware/color_control_server/color_control_server.ino]:
    the number validator and parser, the four command handlers
    (colour correction, solid colour, gradient, per-pixel list) and the
    reload of the saved colours at boot.

    The sketch calls into the C library ([isdigit], [isxdigit], [isspace],
    [strtoul]), the Arduino core ([String], [constrain], [WebServer],
    [Preferences]) and FastLED ([CRGB], [fill_gradient_RGB]). None of
    these is part of the repository; each member the sketch uses is
    written out below after the library it comes from, for the ESP32
    target (32-bit [unsigned long], 16-bit [saccum87] and [accum88]).

    Conventions.
    - A [uint32_t] is a [Z] in [0, 2^32); every narrowing conversion the
      source performs is written out ([to_uint8], [to_uint16], [to_int16]).
    - An Arduino [String] is a [list ascii].
    - A C array is a list; reads and writes go through [peek] and [poke],
      which report an index outside the array instead of hiding it.
    - A handler either sends a reply and leaves a new device state, or it
      faults (integer division by zero, access outside an array). *)

From Stdlib Require Import ZArith Ascii String Bool Lia.
From stdpp Require Import base list gmap strings.

Local Open Scope Z_scope.

(** ** Strings *)

Abbreviation Str := (list ascii).

(** String literal of the source as a character list. *)
Definition str (s : string) : Str := list_ascii_of_string s.

Definition code (c : ascii) : Z := Z.of_N (N_of_ascii c).

(** *** <ctype.h>, "C" locale *)

Definition isdigit (c : ascii) : bool :=
  (48 <=? code c) && (code c <=? 57).

Definition isxdigit (c : ascii) : bool :=
  isdigit c
  || ((65 <=? code c) && (code c <=? 70))
  || ((97 <=? code c) && (code c <=? 102)).

Definition isspace (c : ascii) : bool :=
  (code c =? 32) || ((9 <=? code c) && (code c <=? 13)).

(** *** Arduino [String] methods used by the sketch *)

(** Characters left after the leading white space. *)
Fixpoint skip_space (s : Str) : Str :=
  match s with
  | c :: s' => if isspace c then skip_space s' else s
  | [] => []
  end.

(** [String::trim]: drop leading, then trailing, white space. *)
Definition trim (s : Str) : Str :=
  rev (skip_space (rev (skip_space s))).

(** [value.startsWith(prefix)]. *)
Fixpoint startsWith (value prefix : Str) {struct prefix} : bool :=
  match prefix with
  | [] => true
  | p :: prefix' =>
      match value with
      | c :: value' => if Ascii.eqb c p then startsWith value' prefix' else false
      | [] => false
      end
  end.

(** [values.indexOf(ch)]; [None] stands for the source's [-1]. *)
Fixpoint indexOf (ch : ascii) (values : Str) : option nat :=
  match values with
  | [] => None
  | c :: rest =>
      if Ascii.eqb c ch then Some 0%nat
      else option_map S (indexOf ch rest)
  end.

(** ** <stdlib.h> [strtoul] on a 32-bit [unsigned long] *)

Definition ULONG_MAX : Z := 4294967295.

Definition digit_of (c : ascii) : option Z :=
  if isdigit c then Some (code c - 48)
  else if (65 <=? code c) && (code c <=? 90) then Some (code c - 55)
  else if (97 <=? code c) && (code c <=? 122) then Some (code c - 87)
  else None.

(** Consume digits of the base while there are any. *)
Fixpoint accumulate (base acc : Z) (s : Str) : Z :=
  match s with
  | c :: s' =>
      match digit_of c with
      | Some d => if d <? base then accumulate base (acc * base + d) s' else acc
      | None => acc
      end
  | [] => acc
  end.

Definition strip_sign (s : Str) : bool * Str :=
  match s with
  | c :: s' =>
      if Ascii.eqb c "-" then (true, s')
      else if Ascii.eqb c "+" then (false, s')
      else (false, s)
  | [] => (false, [])
  end.

Definition strip_0x (base : Z) (s : Str) : Str :=
  match s with
  | c0 :: x :: s' =>
      if (base =? 16) && Ascii.eqb c0 "0" && (Ascii.eqb x "x" || Ascii.eqb x "X")
      then s' else s
  | _ => s
  end.

(** [strtoul(nptr, NULL, base)]: white space, optional sign, optional
    [0x] when the base is 16, digits; a value that does not fit saturates
    at [ULONG_MAX]; a minus sign negates modulo [2^32]. *)
Definition strtoul (nptr : Str) (base : Z) : Z :=
  let '(neg, s) := strip_sign (skip_space nptr) in
  let acc := accumulate base 0 (strip_0x base s) in
  if ULONG_MAX <? acc then ULONG_MAX
  else if neg then (- acc) mod 2 ^ 32
  else acc.

(** ** Validation and parsing *)

(** [isValidNumber]: the argument is trimmed, then checked against one of
    the three notations. *)
Definition isValidNumber (value : Str) : bool :=
  let value := trim value in
  if startsWith value (str "#") then forallb isxdigit (drop 1 value)
  else if startsWith value (str "0x") || startsWith value (str "0X")
  then forallb isxdigit (drop 2 value)
  else forallb isdigit value.

(** [getNumber]: no trimming here; the caller passes what it has. *)
Definition getNumber (value : Str) : Z :=
  if startsWith value (str "#") then strtoul (drop 1 value) 16
  else if startsWith value (str "0x") || startsWith value (str "0X")
  then strtoul value 16
  else strtoul value 10.

(** Decimal value of a digit string, most significant digit first. *)
Definition decimal_value (digits : Str) : Z :=
  fold_left (fun acc c => acc * 10 + (code c - 48)) digits 0.

(** ** Faults and array accesses *)

Inductive Fault : Type :=
  | DivideByZero
  | OutOfBounds (index : nat).

Inductive Res (A : Type) : Type :=
  | Done (a : A)
  | Trap (f : Fault).

Arguments Done {A} a.
Arguments Trap {A} f.

Definition bind {A B : Type} (m : Res A) (k : A -> Res B) : Res B :=
  match m with
  | Done a => k a
  | Trap f => Trap f
  end.

Notation "'let*' x ':=' m 'in' k" := (bind m (fun x => k))
  (at level 10, x pattern, m at level 100, k at level 200).

(** [a[i]] as an rvalue. *)
Definition peek {A : Type} (a : list A) (i : nat) : Res A :=
  match a !! i with
  | Some x => Done x
  | None => Trap (OutOfBounds i)
  end.

(** [a[i] = x]. *)
Definition poke {A : Type} (a : list A) (i : nat) (x : A) : Res (list A) :=
  if (i <? length a)%nat then Done (<[i := x]> a) else Trap (OutOfBounds i).

(** Unsigned 32-bit division. *)
Definition udiv (a b : Z) : Res Z :=
  if b =? 0 then Trap DivideByZero else Done (a / b).

(** ** Integer conversions *)

Definition to_uint8 (z : Z) : Z := z mod 256.
Definition to_uint16 (z : Z) : Z := z mod 65536.
Definition to_uint32 (z : Z) : Z := z mod 2 ^ 32.
Definition to_int16 (z : Z) : Z := (z + 32768) mod 65536 - 32768.

(** Arduino's [constrain(amt, low, high)] macro. *)
Definition constrain (amt low high : Z) : Z :=
  if amt <? low then low else if high <? amt then high else amt.

(** ** FastLED: [CRGB] and the RGB gradient fills of [colorutils] *)

Record CRGB : Type := mkCRGB { red : Z; green : Z; blue : Z }.

(** [CRGB(uint8_t r, uint8_t g, uint8_t b)]. *)
Definition CRGB_rgb (r g b : Z) : CRGB :=
  mkCRGB (to_uint8 r) (to_uint8 g) (to_uint8 b).

(** [CRGB(uint32_t colorcode)]. *)
Definition CRGB_code (colorcode : Z) : CRGB :=
  mkCRGB (Z.land (Z.shiftr colorcode 16) 255)
         (Z.land (Z.shiftr colorcode 8) 255)
         (Z.land colorcode 255).

(** [CRGB::as_uint32_t]: opaque alpha in the top byte. *)
Definition as_uint32_t (c : CRGB) : Z :=
  Z.lor (Z.lor (Z.lor 4278190080 (Z.shiftl (red c) 16)) (Z.shiftl (green c) 8))
        (blue c).

Definition black : CRGB := mkCRGB 0 0 0.

(** The loop of the two-point [fill_gradient_RGB]: [n] pixels from index
    [i], the 8.8 fixed-point accumulators stepped by the deltas. *)
Fixpoint ramp (n i : nat) (r88 g88 b88 rdelta87 gdelta87 bdelta87 : Z)
    (leds : list CRGB) : Res (list CRGB) :=
  match n with
  | O => Done leds
  | S n' =>
      let* leds' := poke leds i
        (CRGB_rgb (Z.shiftr r88 8) (Z.shiftr g88 8) (Z.shiftr b88 8)) in
      ramp n' (S i)
           (to_uint16 (r88 + rdelta87)) (to_uint16 (g88 + gdelta87))
           (to_uint16 (b88 + bdelta87))
           rdelta87 gdelta87 bdelta87 leds'
  end.

(** FastLED [fill_gradient_RGB(leds, startpos, startcolor, endpos, endcolor)]. *)
Definition fill_gradient_RGB_span (leds : list CRGB)
    (startpos : nat) (startcolor : CRGB) (endpos : nat) (endcolor : CRGB)
    : Res (list CRGB) :=
  let '(startpos, startcolor, endpos, endcolor) :=
    if (endpos <? startpos)%nat
    then (endpos, endcolor, startpos, startcolor)
    else (startpos, startcolor, endpos, endcolor) in
  let rdistance87 := to_int16 (Z.shiftl (red endcolor - red startcolor) 7) in
  let gdistance87 := to_int16 (Z.shiftl (green endcolor - green startcolor) 7) in
  let bdistance87 := to_int16 (Z.shiftl (blue endcolor - blue startcolor) 7) in
  let pixeldistance := to_uint16 (Z.of_nat endpos - Z.of_nat startpos) in
  let divisor := to_int16 (if pixeldistance =? 0 then 1 else pixeldistance) in
  let rdelta87 := to_int16 (to_int16 (Z.quot rdistance87 divisor) * 2) in
  let gdelta87 := to_int16 (to_int16 (Z.quot gdistance87 divisor) * 2) in
  let bdelta87 := to_int16 (to_int16 (Z.quot bdistance87 divisor) * 2) in
  ramp (S (endpos - startpos)) startpos
       (to_uint16 (Z.shiftl (red startcolor) 8))
       (to_uint16 (Z.shiftl (green startcolor) 8))
       (to_uint16 (Z.shiftl (blue startcolor) 8))
       rdelta87 gdelta87 bdelta87 leds.

(** FastLED [fill_gradient_RGB(leds, numLeds, c1, c2, c3)]: [c1] to [c2]
    over the first half, then [c2] to [c3] from the middle to the end. *)
Definition fill_gradient_RGB (leds : list CRGB) (numLeds : Z)
    (c1 c2 c3 : CRGB) : Res (list CRGB) :=
  let half := Z.to_nat (numLeds / 2) in
  let last := Z.to_nat (to_uint16 (numLeds - 1)) in
  let* leds' := fill_gradient_RGB_span leds 0 c1 half c2 in
  fill_gradient_RGB_span leds' half c2 last c3.

(** ** Device state *)

(** A value kept by [Preferences]: a byte blob, held here as the 32-bit
    words it was written from, or a single [unsigned char]. *)
Inductive NvsValue : Type :=
  | Blob (words : list Z)
  | UChar (v : Z).

(** Non-volatile storage: (namespace, key) to value. *)
Abbreviation Nvs := (gmap (string * string) NvsValue).

Record Device : Type := mkDevice {
  strip : list CRGB;        (* CRGB strip[num_pixels] *)
  correction : CRGB;        (* FastLED.setCorrection *)
  nvs : Nvs                 (* Preferences *)
}.

(** ** Requests *)

(** The arguments of a POST, in the order received. *)
Abbreviation Request := (list (string * Str)).

Definition hasArg (req : Request) (name : string) : bool :=
  existsb (fun kv => String.eqb (fst kv) name) req.

(** [server.arg(name)]: the first argument of that name, or the empty
    string. *)
Fixpoint arg (req : Request) (name : string) : Str :=
  match req with
  | [] => []
  | (k, v) :: req' => if String.eqb k name then v else arg req' name
  end.

Abbreviation Outcome := (Res (string * Device)).

(** ** The command handlers *)

Section Server.

(** [const uint16_t num_pixels], set at build time. *)
Variable num_pixels : nat.

Definition ns_pixels : string := "pixels".
Definition key_color_vals : string := "color_vals".
Definition ns_color_corr : string := "color_corr".

(** [prefs.begin("pixels", false)], [putBytes("color_vals", pixels,
    num_pixels * sizeof(uint32_t))], [prefs.end()]. [opens] is what
    [begin] returned. *)
Definition save_pixels (opens : bool) (pixels : list Z) (store : Nvs) : Nvs :=
  if opens
  then <[(ns_pixels, key_color_vals) := Blob (take num_pixels pixels)]> store
  else store.

(** [prefs.begin("color_corr", false)], three [putUChar], [prefs.end()]. *)
Definition save_correction (opens : bool) (corr_r corr_g corr_b : Z)
    (store : Nvs) : Nvs :=
  if opens
  then <[(ns_color_corr, "corr_b"%string) := UChar corr_b]>
         (<[(ns_color_corr, "corr_g"%string) := UChar corr_g]>
            (<[(ns_color_corr, "corr_r"%string) := UChar corr_r]> store))
  else store.

(** *** [handleColorCorrection] *)

Definition handleColorCorrection (opens : bool) (req : Request)
    (d : Device) : Outcome :=
  if hasArg req "correctionRed"
     && hasArg req "correctionRed"
     && hasArg req "correctionRed"
  then
    let corr_r_str := trim (arg req "correctionRed") in
    let corr_g_str := trim (arg req "correctionGreen") in
    let corr_b_str := trim (arg req "correctionBlue") in
    if isValidNumber corr_r_str
       && isValidNumber corr_g_str
       && isValidNumber corr_b_str
    then
      let corr_r := to_uint8 (constrain (getNumber corr_r_str) 0 255) in
      let corr_g := to_uint8 (constrain (getNumber corr_g_str) 0 255) in
      let corr_b := to_uint8 (constrain (getNumber corr_b_str) 0 255) in
      Done ("Color correction values applied."%string,
            {| strip := strip d;
               correction := CRGB_rgb corr_r corr_g corr_b;
               nvs := save_correction opens corr_r corr_g corr_b (nvs d) |})
    else
      Done ("Error: One or more values are invalid. Please enter only decimal or hex values."%string, d)
  else
    Done ("Error: Could not process color correction form"%string, d).

(** *** [handleSolidColor] *)

(** [for (i = 0; i < num_pixels; i++) { pixels[i] = color_val;
    strip[i] = CRGB(color_val & 0xFFFFFF); }], [n] rounds from [i]. *)
Fixpoint paint_solid (n i : nat) (color_val : Z) (pixels : list Z)
    (leds : list CRGB) : Res (list Z * list CRGB) :=
  match n with
  | O => Done (pixels, leds)
  | S n' =>
      let* pixels' := poke pixels i color_val in
      let* leds' := poke leds i (CRGB_code (Z.land color_val 16777215)) in
      paint_solid n' (S i) color_val pixels' leds'
  end.

(** [junk] is what the stack held where the local [pixels] array is
    placed. *)
Definition handleSolidColor (opens : bool) (junk : list Z) (req : Request)
    (d : Device) : Outcome :=
  if hasArg req "solidColor" then
    let color_str := arg req "solidColor" in
    if isValidNumber color_str then
      let color_val := getNumber color_str in
      let* painted :=
        paint_solid num_pixels 0 color_val (resize num_pixels 0 junk) (strip d) in
      Done ("LEDs updated successfully!"%string,
            {| strip := snd painted;
               correction := correction d;
               nvs := save_pixels opens (fst painted) (nvs d) |})
    else
      Done ("Error: Invalid value. Please enter only decimal or hex."%string, d)
  else
    Done ("Error: Could not process form"%string, d).

(** *** [handleGradient] *)

(** Inner loop: [j] copies of the segment colour, none past the end of
    [pixels]. *)
Fixpoint fill_segment (j : nat) (leds : list CRGB) (i idx : nat)
    (pixels : list Z) : Res (nat * list Z) :=
  match j with
  | O => Done (idx, pixels)
  | S j' =>
      if (idx <? num_pixels)%nat then
        let* c := peek leds i in
        let* pixels' := poke pixels idx (Z.land (as_uint32_t c) 16777215) in
        fill_segment j' leds i (S idx) pixels'
      else fill_segment j' leds i idx pixels
  end.

(** Outer loop: segments [i], [i+1], ... ([n] of them); the debug print
    reads [strip[i]] once per segment. *)
Fixpoint fill_segments (n i leds_per_seg : nat) (leds : list CRGB)
    (idx : nat) (pixels : list Z) : Res (list Z) :=
  match n with
  | O => Done pixels
  | S n' =>
      let* _ := peek leds i in
      let* filled := fill_segment leds_per_seg leds i idx pixels in
      fill_segments n' (S i) leds_per_seg leds (fst filled) (snd filled)
  end.

(** [for (i = 0; i < n; i++) strip[i] = CRGB(pixels[i] & 0xFFFFFF);],
    [n] rounds from [i]. *)
Fixpoint copy_to_strip (n i : nat) (pixels : list Z) (leds : list CRGB)
    : Res (list CRGB) :=
  match n with
  | O => Done leds
  | S n' =>
      let* p := peek pixels i in
      let* leds' := poke leds i (CRGB_code (Z.land p 16777215)) in
      copy_to_strip n' (S i) pixels leds'
  end.

(** [num_segs = (num_pixels + leds_per_seg - 1) / leds_per_seg]. *)
Definition num_segs_of (leds_per_seg : Z) : Res Z :=
  udiv (to_uint32 (Z.of_nat num_pixels + leds_per_seg - 1)) leds_per_seg.

Definition handleGradient (opens : bool) (junk : list Z) (req : Request)
    (d : Device) : Outcome :=
  if hasArg req "gradientLedsPerSegment"
     && hasArg req "gradientStartColor"
     && hasArg req "gradientMiddleColor"
     && hasArg req "gradientEndColor"
  then
    let leds_per_seg_str := arg req "gradientLedsPerSegment" in
    let start_color_str := arg req "gradientStartColor" in
    let mid_color_str := arg req "gradientMiddleColor" in
    let end_color_str := arg req "gradientEndColor" in
    if isValidNumber leds_per_seg_str
       && isValidNumber start_color_str
       && isValidNumber mid_color_str
       && isValidNumber end_color_str
    then
      let leds_per_seg := getNumber leds_per_seg_str in
      let start_color := getNumber start_color_str in
      let mid_color := getNumber mid_color_str in
      let end_color := getNumber end_color_str in
      if Z.of_nat num_pixels <? leds_per_seg then
        Done ("Error: LEDs per segment larger than total LEDs"%string, d)
      else
        let* num_segs := num_segs_of leds_per_seg in
        let* leds :=
          fill_gradient_RGB (strip d) (to_uint16 num_segs)
            (CRGB_code (Z.land start_color 16777215))
            (CRGB_code (Z.land mid_color 16777215))
            (CRGB_code (Z.land end_color 16777215)) in
        let* pixels :=
          fill_segments (Z.to_nat num_segs) 0 (Z.to_nat leds_per_seg) leds 0
            (resize num_pixels 0 junk) in
        let* leds' := copy_to_strip num_pixels 0 pixels leds in
        Done ("LEDs updated successfully!"%string,
              {| strip := leds';
                 correction := correction d;
                 nvs := save_pixels opens pixels (nvs d) |})
    else
      Done ("Error: One or more values are invalid. Please enter only decimal or hex values."%string, d)
  else
    Done ("Error: Could not process form"%string, d).

(** *** [handleSetPixels] *)

(** The locals that outlive the [while] loop. *)
Record Scan : Type := mkScan {
  sc_values : Str;
  sc_idx : nat;
  sc_valid : bool;
  sc_pixels : list Z
}.

(** The [while ((pos = values.indexOf(',')) != -1)] loop. Every round
    removes at least the comma from [values], so [fuel = length values]
    rounds are never used up: see [scan_tokens_fuel]. *)
Fixpoint scan_tokens (fuel : nat) (values : Str) (idx : nat)
    (pixels : list Z) : Res Scan :=
  match fuel, indexOf "," values with
  | S fuel', Some pos =>
      let token := trim (take pos values) in
      let values' := drop (S pos) values in
      if negb (isValidNumber token) then
        Done (mkScan values' idx false pixels)
      else
        let* pixels' := poke pixels idx (getNumber token) in
        let idx' := S idx in
        if (num_pixels <=? idx')%nat then
          Done (mkScan values' idx' true pixels')
        else scan_tokens fuel' values' idx' pixels'
  | _, _ => Done (mkScan values idx true pixels)
  end.

Definition handleSetPixels (opens : bool) (req : Request) (d : Device)
    : Outcome :=
  if hasArg req "pixelValues" then
    let values := arg req "pixelValues" in
    let pixels := replicate num_pixels 0 in
    let* sc := scan_tokens (length values) values 0 pixels in
    if sc_valid sc && isValidNumber (sc_values sc) then
      let* pixels' :=
        poke (sc_pixels sc) (sc_idx sc) (getNumber (trim (sc_values sc))) in
      let* leds := copy_to_strip (S (sc_idx sc)) 0 pixels' (strip d) in
      Done ("LEDs updated successfully!"%string,
            {| strip := leds;
               correction := correction d;
               nvs := save_pixels opens pixels' (nvs d) |})
    else
      Done ("Error: One or more values are invalid. Please enter only decimal or hex values."%string, d)
  else
    Done ("Error: Could not process form"%string, d).

(** *** [setup], the part that reloads the saved colours *)

(** [opens] is what [prefs.begin("pixels", true)] returned. The strip is a
    zero-initialised global at boot; [FastLED.clear] blanks it. *)
Definition setup_pixels (opens : bool) (store : Nvs) : Res (list CRGB) :=
  let boot := replicate num_pixels black in
  let loaded :=
    if opens then
      match store !! (ns_pixels, key_color_vals) with
      | Some (Blob words) => words
      | _ => []
      end
    else [] in
  if (0 <? length loaded)%nat
  then copy_to_strip (length loaded) 0 loaded boot
  else Done (replicate num_pixels black).

End Server.

(** ** Auxiliary definitions for the statements *)

(** A comma-separated list as the client sends it. *)
Fixpoint join_commas (tokens : list Str) : Str :=
  match tokens with
  | [] => []
  | [t] => t
  | t :: rest => t ++ ","%char :: join_commas rest
  end.

(** The colour a list entry ends up as on the strip. *)
Definition pixel_of (token : Str) : CRGB :=
  CRGB_code (Z.land (getNumber (trim token)) 16777215).

Definition strip_after (o : Outcome) : option (list CRGB) :=
  match o with
  | Done (_, d) => Some (strip d)
  | Trap _ => None
  end.

(** The words last saved under ["pixels"/"color_vals"]. *)
Definition saved_pixels (d : Device) : option (list Z) :=
  match nvs d !! (ns_pixels, key_color_vals) with
  | Some (Blob ws) => Some ws
  | _ => None
  end.

(** A list entry the handler can take: no comma inside, and valid. *)
Definition entry_ok (t : Str) : Prop :=
  indexOf "," t = None /\ isValidNumber t = true.

(** Clamping to a byte, as the specification words it. *)
Definition clamp_byte (v : Z) : Z := Z.max 0 (Z.min v 255).

(** A gradient request with its four fields. *)
Definition gradient_request (leds_per_seg start mid end_ : Str) : Request :=
  [("gradientLedsPerSegment"%string, leds_per_seg);
   ("gradientStartColor"%string, start);
   ("gradientMiddleColor"%string, mid);
   ("gradientEndColor"%string, end_)].

(** A solid-colour request. *)
Definition solid_request (color : Str) : Request :=
  [("solidColor"%string, color)].

(** A pixel-list request. *)
Definition pixels_request (values : Str) : Request :=
  [("pixelValues"%string, values)].

(** A correction request that leaves out the green field. *)
Definition req_no_green : Request :=
  [("correctionRed"%string, str "255"); ("correctionBlue"%string, str "255")].

(** A device of [n] pixels, all of one colour, with no correction applied
    and that state saved. *)
Definition uniform_device (n : nat) (colorcode : Z) : Device :=
  {| strip := replicate n (CRGB_code colorcode);
     correction := mkCRGB 255 255 255;
     nvs := <[(ns_color_corr, "corr_b"%string) := UChar 255]>
              (<[(ns_color_corr, "corr_g"%string) := UChar 255]>
                 (<[(ns_color_corr, "corr_r"%string) := UChar 255]>
                    (<[(ns_pixels, key_color_vals) := Blob (replicate n colorcode)]> ∅))) |}.

(** No white space in front. *)
Definition tight (s : Str) : Prop :=
  match s with
  | c :: _ => isspace c = false
  | [] => True
  end.

(** ** The rest of the sketch *)

(** [separateRgb]: the three reference parameters, as a triple. *)
Definition separateRgb (hexColor : Z) : Z * Z * Z :=
  (to_uint8 (Z.land (Z.shiftr hexColor 16) 255),
   to_uint8 (Z.land (Z.shiftr hexColor 8) 255),
   to_uint8 (Z.land hexColor 255)).

(** [prefs.getUChar(key, defaultValue)] in an open namespace: the default
    when the key is absent or holds something else. *)
Definition getUChar (store : Nvs) (ns key : string) (defaultValue : Z) : Z :=
  match store !! (ns, key) with
  | Some (UChar v) => to_uint8 v
  | _ => defaultValue
  end.

(** [prefs.clear()] in an open namespace: every key of the namespace goes. *)
Definition prefs_clear (ns : string) (store : Nvs) : Nvs :=
  filter (fun kv => fst (fst kv) <> ns) store.

(** The block of [setup] and of [serveFile] that reads the saved
    correction; [opens] is what [prefs.begin("color_corr", true)]
    returned. *)
Definition load_correction (opens : bool) (store : Nvs) : Z * Z * Z :=
  if opens
  then (getUChar store ns_color_corr "corr_r" 255,
        getUChar store ns_color_corr "corr_g" 255,
        getUChar store ns_color_corr "corr_b" 255)
  else (255, 255, 255).

(** [setup], as far as the device state goes: the optional clearing under
    [CLEAR_PREFS], the correction, the saved colours. The three booleans
    are what the three [prefs.begin] calls returned. *)
Definition setup (num_pixels : nat) (CLEAR_PREFS : bool)
    (opens_clear opens_corr opens_pixels : bool) (store : Nvs) : Res Device :=
  let store :=
    if CLEAR_PREFS && opens_clear then prefs_clear ns_color_corr store
    else store in
  let '(corr_r, corr_g, corr_b) := load_correction opens_corr store in
  let* leds := setup_pixels num_pixels opens_pixels store in
  Done {| strip := leds;
          correction := CRGB_rgb corr_r corr_g corr_b;
          nvs := store |}.

(** The [setup] of the preference-clearing sketch: [prefs.begin
    ("color_correction", false)], [prefs.clear()], [prefs.end()]. *)
Definition clearing_sketch_setup (opens : bool) (store : Nvs) : Nvs :=
  if opens then prefs_clear "color_correction" store else store.

(** *** [serveFile] and [handleRoot] *)

(** [path.endsWith(suffix)]. *)
Definition endsWith (path suffix : Str) : bool :=
  startsWith (rev path) (rev suffix).

(** The digits of [utoa(value, buf, 10)], least significant first;
    [fuel] bounds the number of digits. *)
Fixpoint utoa_digits (fuel : nat) (value : Z) : Str :=
  match fuel with
  | O => []
  | S fuel' =>
      ascii_of_N (Z.to_N (48 + value mod 10))
      :: (if value / 10 =? 0 then [] else utoa_digits fuel' (value / 10))
  end.

(** [String(unsigned char value)]: the decimal text of a byte. *)
Definition String_uchar (value : Z) : Str :=
  rev (utoa_digits 3 (to_uint8 value)).

(** The scan of [String::replace] when the replacement is no longer than
    what it replaces: left to right, no overlap. [skip] counts the
    characters of a match still to step over. *)
Fixpoint replace_from (skip : nat) (find repl s : Str) : Str :=
  match s with
  | [] => []
  | c :: s' =>
      match skip with
      | S k => replace_from k find repl s'
      | O =>
          if startsWith s find
          then repl ++ replace_from (length find - 1) find repl s'
          else c :: replace_from 0 find repl s'
      end
  end.

(** [html.replace(find, repl)], for [repl] no longer than [find]. *)
Definition replace (html find repl : Str) : Str :=
  match find with
  | [] => html
  | _ :: _ => replace_from 0 find repl html
  end.

(** SPIFFS: the files, by path. *)
Abbreviation Spiffs := (gmap Str Str).

(** [serveFile]: [Some html] when the page was sent with status 200 and
    the function returned true, [None] when it returned false. *)
Definition serveFile (fs : Spiffs) (opens : bool) (store : Nvs) (path : Str)
    : option Str :=
  let path := if endsWith path (str "/") then path ++ str "index.html" else path in
  match fs !! path with
  | Some html =>
      if bool_decide (path = str "/index.html") then
        let '(corr_r, corr_g, corr_b) := load_correction opens store in
        let html := replace html (str "%CORR_RED%") (String_uchar corr_r) in
        let html := replace html (str "%CORR_GREEN%") (String_uchar corr_g) in
        let html := replace html (str "%CORR_BLUE%") (String_uchar corr_b) in
        Some html
      else Some html
  | None => None
  end.

(** [handleRoot]: status, content type and body of the answer. *)
Definition handleRoot (fs : Spiffs) (opens : bool) (store : Nvs)
    : Z * string * Str :=
  match serveFile fs opens store (str "/") with
  | Some html => (200, "text/html"%string, html)
  | None => (404, "text/plain"%string, str "File Not Found")
  end.

(** ** More auxiliary definitions for the statements *)

(** What the next boot makes of a device's saved state, in the build as it
    is ([CLEAR_PREFS] 0) and with both namespaces opening. *)
Definition reboot (num_pixels : nat) (d : Device) : Res Device :=
  setup num_pixels false false true true (nvs d).


(** Value of one hexadecimal digit. *)
Definition hex_digit_value (c : ascii) : Z :=
  if isdigit c then code c - 48
  else if code c <=? 70 then code c - 55
  else code c - 87.

(** Hexadecimal value of a digit string, most significant digit first. *)
Definition hex_value (digits : Str) : Z :=
  fold_left (fun acc c => acc * 16 + hex_digit_value c) digits 0.

(** A colour whose three channels are bytes. *)
Definition byte_color (c : CRGB) : Prop :=
  0 <= red c <= 255 /\ 0 <= green c <= 255 /\ 0 <= blue c <= 255.

(** The word the gradient handler stores for a segment colour. *)
Definition word_of (c : CRGB) : Z := Z.land (as_uint32_t c) 16777215.

(** The colour the strip shows for a stored word. *)
Definition color_of_word (w : Z) : CRGB := CRGB_code (Z.land w 16777215).

(** Each segment colour repeated [leds_per_seg] times, in order. *)
Definition spread {A : Type} (leds_per_seg : nat) (segs : list A) : list A :=
  flat_map (replicate leds_per_seg) segs.

(** Text without a ['%'] in it. *)
Definition plain (s : Str) : Prop :=
  forallb (fun c => negb (Ascii.eqb c "%")) s = true.

(** The answer to a successful pixel command. *)
Definition updated : string := "LEDs updated successfully!".

(** * Properties *)

(** ** The code on a few inputs *)

Example parse_0x : getNumber (str "0xFF00FF") = 16711935.
Proof. reflexivity. Qed.

Example parse_hash : getNumber (str "#10") = 16.
Proof. reflexivity. Qed.

Example parse_leading_blank_hash :
  isValidNumber (str " #10") = true /\ getNumber (str " #10") = 0.
Proof. by vm_compute. Qed.

Example reject_words : isValidNumber (str "not-a-number") = false.
Proof. reflexivity. Qed.

Example reject_sign : isValidNumber (str "-1") = false.
Proof. reflexivity. Qed.

Example two_of_five :
  strip_after
    (handleSetPixels 5 true (pixels_request (str "#ff0000, 255")) (uniform_device 5 0))
  = Some [mkCRGB 255 0 0; mkCRGB 0 0 255; black; black; black].
Proof. reflexivity. Qed.

Example gradient_by_one :
  strip_after
    (handleGradient 5 true []
       (gradient_request (str "1") (str "#ff0000") (str "#00ff00") (str "#0000ff"))
       (uniform_device 5 0))
  = Some [mkCRGB 255 0 0; mkCRGB 127 127 0; mkCRGB 0 255 0;
          mkCRGB 0 127 127; mkCRGB 0 0 255].
Proof. reflexivity. Qed.

Example gradient_too_long :
  handleGradient 5 true []
    (gradient_request (str "6") (str "1") (str "2") (str "3")) (uniform_device 5 0)
  = Done ("Error: LEDs per segment larger than total LEDs"%string, uniform_device 5 0).
Proof. reflexivity. Qed.

Example first_boot : setup_pixels 3 true ∅ = Done [black; black; black].
Proof. reflexivity. Qed.

(** ** Characters and trimming *)

Ltac each_char c :=
  destruct c as [[] [] [] [] [] [] [] []]; vm_compute; try done.

Lemma space_not_digit c : isspace c = true -> digit_of c = None.
Proof. each_char c. Qed.

Lemma digit_of_isdigit c : isdigit c = true -> digit_of c = Some (code c - 48).
Proof. unfold digit_of. by intros ->. Qed.

Lemma isdigit_range c : isdigit c = true -> 0 <= code c - 48 < 10.
Proof. unfold isdigit. lia. Qed.

Lemma plain_not_sign c :
  isdigit c || isspace c = true ->
  Ascii.eqb c "-" = false /\ Ascii.eqb c "+" = false /\
  Ascii.eqb c "#" = false /\ Ascii.eqb c "x" = false /\ Ascii.eqb c "X" = false.
Proof. each_char c. Qed.

Lemma skip_space_split s :
  exists w, s = w ++ skip_space s /\ forallb isspace w = true.
Proof.
  induction s as [|c s [w [E W]]]; simpl.
  - by exists [].
  - destruct (isspace c) eqn:C.
    + exists (c :: w). simpl. rewrite C, W. split; [by f_equal | done].
    + by exists [].
Qed.

Lemma skip_space_tight s : tight (skip_space s).
Proof.
  induction s as [|c s IH]; simpl; [done|].
  destruct (isspace c) eqn:C; [done | exact C].
Qed.

Lemma tight_skip_space s : tight s -> skip_space s = s.
Proof. destruct s as [|c s]; simpl; [done | by intros ->]. Qed.

Lemma forallb_rev_true {A} (f : A -> bool) l :
  forallb f l = true -> forallb f (rev l) = true.
Proof.
  rewrite !forallb_forall. intros H x Hx. apply H. by apply in_rev.
Qed.

(** What [trim] removes on the right is white space. *)
Lemma trim_shape s :
  exists w, skip_space s = trim s ++ w /\ forallb isspace w = true.
Proof.
  unfold trim. destruct (skip_space_split (rev (skip_space s))) as [w [E W]].
  exists (rev w). split; [| by apply forallb_rev_true].
  rewrite <- rev_app_distr, <- E. by rewrite rev_involutive.
Qed.

Lemma trim_tight s : tight (trim s).
Proof.
  destruct (trim_shape s) as [w [E _]].
  pose proof (skip_space_tight s) as T. rewrite E in T.
  by destruct (trim s).
Qed.

Lemma trim_idem s : trim (trim s) = trim s.
Proof.
  pose proof (trim_tight s) as T. unfold trim at 1.
  rewrite (tight_skip_space _ T). unfold trim.
  rewrite rev_involutive, tight_skip_space; [done|].
  apply skip_space_tight.
Qed.

Lemma isValidNumber_trim s : isValidNumber (trim s) = isValidNumber s.
Proof. unfold isValidNumber. by rewrite trim_idem. Qed.

Lemma trim_nil_space s : trim s = [] -> skip_space s = [].
Proof.
  intros H. destruct (trim_shape s) as [w [E W]]. rewrite H in E. simpl in E.
  pose proof (skip_space_tight s) as T. rewrite E in *.
  destruct w as [|c w]; [done|]. simpl in *.
  apply andb_prop in W as [W _]. congruence.
Qed.

(** ** [strtoul] *)

Lemma accumulate_nonneg base s acc :
  0 <= base -> 0 <= acc -> 0 <= accumulate base acc s.
Proof.
  intros Hb. revert acc. induction s as [|c s IH]; simpl; intros acc Ha; [done|].
  destruct (digit_of c) as [d|] eqn:D; [|done].
  destruct (d <? base) eqn:L; [|done].
  apply IH. assert (0 <= d); [|nia].
  unfold digit_of in D. repeat case_match; simplify_eq; unfold isdigit in *; lia.
Qed.

Lemma strtoul_range s base : 0 <= base -> 0 <= strtoul s base <= ULONG_MAX.
Proof.
  intros Hb. unfold strtoul. destruct (strip_sign (skip_space s)) as [neg t].
  pose proof (accumulate_nonneg base (strip_0x base t) 0 Hb (Z.le_refl 0)).
  unfold ULONG_MAX in *. destruct (Z.ltb_spec 4294967295 (accumulate base 0 (strip_0x base t))); [lia|].
  destruct neg; [|lia].
  pose proof (Z.mod_pos_bound (- accumulate base 0 (strip_0x base t)) (2 ^ 32)). lia.
Qed.

Lemma getNumber_range s : 0 <= getNumber s <= ULONG_MAX.
Proof. unfold getNumber. repeat case_match; apply strtoul_range; lia. Qed.

Lemma strtoul_space s base : skip_space s = [] -> strtoul s base = 0.
Proof. unfold strtoul. by intros ->. Qed.

Lemma accumulate_decimal d w acc :
  forallb isdigit d = true -> forallb isspace w = true ->
  accumulate 10 acc (d ++ w) = fold_left (fun a c => a * 10 + (code c - 48)) d acc.
Proof.
  intros D W. revert acc. induction d as [|c d IH]; simpl; intros acc.
  - destruct w as [|c w]; simpl; [done|]. simpl in W.
    apply andb_prop in W as [W _]. by rewrite (space_not_digit _ W).
  - simpl in D. apply andb_prop in D as [C D].
    rewrite (digit_of_isdigit _ C).
    pose proof (isdigit_range _ C).
    destruct (Z.ltb_spec (code c - 48) 10); [|lia]. by apply IH.
Qed.

Lemma strtoul_decimal s :
  forallb isdigit (trim s) = true ->
  strtoul s 10 = Z.min (decimal_value (trim s)) ULONG_MAX.
Proof.
  intros D. destruct (trim_shape s) as [w [E W]].
  unfold strtoul. rewrite E.
  assert (strip_sign (trim s ++ w) = (false, trim s ++ w)) as ->.
  { destruct (trim s) as [|c t]; simpl in *.
    - destruct w as [|c w]; simpl in *; [done|].
      apply andb_prop in W as [W _].
      destruct (plain_not_sign c) as (-> & -> & _); [by rewrite W, orb_true_r | done].
    - apply andb_prop in D as [C _].
      destruct (plain_not_sign c) as (-> & -> & _); [by rewrite C | done]. }
  assert (strip_0x 10 (trim s ++ w) = trim s ++ w) as ->.
  { unfold strip_0x. by repeat case_match. }
  rewrite (accumulate_decimal _ _ _ D W). fold (decimal_value (trim s)).
  destruct (Z.ltb_spec ULONG_MAX (decimal_value (trim s))); lia.
Qed.

(** A string of digits and blanks goes down the decimal branch. *)
Lemma getNumber_plain s :
  forallb (fun c => isdigit c || isspace c) s = true ->
  getNumber s = strtoul s 10.
Proof.
  intros H. unfold getNumber.
  destruct s as [|c0 s]; [done|]. simpl in H. apply andb_prop in H as [H0 H].
  destruct (plain_not_sign _ H0) as (_ & _ & E0 & _). simpl. rewrite E0.
  destruct s as [|c1 s]; [by destruct (Ascii.eqb c0 "0")|].
  simpl in H. apply andb_prop in H as [H1 _].
  destruct (plain_not_sign _ H1) as (_ & _ & _ & Ex & EX).
  cbn [startsWith]. rewrite Ex, EX. by destruct (Ascii.eqb c0 "0").
Qed.

Lemma plain_of_trim s :
  forallb isdigit (trim s) = true ->
  forallb (fun c => isdigit c || isspace c) s = true.
Proof.
  intros D. destruct (skip_space_split s) as [w1 [E1 W1]].
  destruct (trim_shape s) as [w2 [E2 W2]].
  rewrite E1, E2, !forallb_app.
  repeat (apply andb_true_intro; split);
    eapply forallb_forall; intros c Hc;
    [ rewrite (proj1 (forallb_forall _ _) W1 c Hc)
    | rewrite (proj1 (forallb_forall _ _) D c Hc)
    | rewrite (proj1 (forallb_forall _ _) W2 c Hc) ];
    by rewrite ?orb_true_r.
Qed.

Lemma getNumber_decimal s :
  forallb isdigit (trim s) = true ->
  getNumber s = Z.min (decimal_value (trim s)) ULONG_MAX.
Proof.
  intros D. rewrite getNumber_plain by by apply plain_of_trim.
  by apply strtoul_decimal.
Qed.

Lemma land_low24 v : Z.land v 16777215 = v mod 2 ^ 24.
Proof. change 16777215 with (Z.ones 24). by apply Z.land_ones. Qed.

(** ** The colour parser *)

(** C5, as stated, fails: the empty token is accepted. *)
Lemma empty_token_counterexample :
  trim [] = [] /\ isValidNumber [] = true /\ getNumber [] = 0.
Proof. by vm_compute. Qed.

(** C5, amended: a token that is empty once trimmed passes [isValidNumber]
    and [getNumber] reads it as 0, trimmed or not; there is no rejection
    of empty input. *)
Theorem empty_token_accepted (s : Str) :
  trim s = [] ->
  isValidNumber s = true /\ getNumber s = 0 /\ getNumber (trim s) = 0.
Proof.
  intros E. split; [| split].
  - unfold isValidNumber. by rewrite E.
  - pose proof (trim_nil_space _ E) as K.
    rewrite getNumber_plain; [by apply strtoul_space|].
    apply plain_of_trim. by rewrite E.
  - by rewrite E.
Qed.

Lemma empty_token_accepted_witness :
  isValidNumber (str "  ") = true /\ getNumber (str "  ") = 0
  /\ getNumber (trim (str "  ")) = 0.
Proof. exact (empty_token_accepted (str "  ") eq_refl). Defined.

(** C6, as stated, fails: ["#"] alone is accepted. *)
Lemma lone_hash_counterexample :
  startsWith (str "#") (str "#") = true /\ isValidNumber (str "#") = true.
Proof. by vm_compute. Qed.

(** C6, amended: a token that, once trimmed, is ['#'] followed by [rest]
    is rejected exactly when [rest] holds a character that is not a
    hexadecimal digit; with [rest] empty it is accepted and read as 0. *)
Theorem hash_token_valid (s rest : Str) :
  trim s = "#"%char :: rest ->
  (isValidNumber s = false <-> exists c, In c rest /\ isxdigit c = false)
  /\ (rest = [] -> isValidNumber s = true /\ getNumber (trim s) = 0).
Proof.
  intros E. unfold isValidNumber. rewrite E. simpl. clear E. split.
  - split.
    + intros H. induction rest as [|c rest IH]; simpl in *; [done|].
      destruct (isxdigit c) eqn:C.
      * destruct (IH H) as [c' [? ?]]. exists c'. auto.
      * exists c. auto.
    + intros [c [Hin Hc]]. apply not_true_is_false. intros H.
      rewrite forallb_forall in H. specialize (H c Hin). congruence.
  - by intros ->.
Qed.

Lemma hash_token_valid_witness :
  (isValidNumber (str " #1g ") = false
   <-> exists c, In c (str "1g") /\ isxdigit c = false)
  /\ (str "1g" = [] ->
      isValidNumber (str " #1g ") = true /\ getNumber (trim (str " #1g ")) = 0).
Proof. exact (hash_token_valid (str " #1g ") (str "1g") eq_refl). Defined.

(** ** Colour correction *)

Lemma constrain_byte v : to_uint8 (constrain v 0 255) = clamp_byte v.
Proof.
  unfold to_uint8, constrain, clamp_byte.
  destruct (Z.ltb_spec v 0); [by rewrite Z.min_l, Z.max_l by lia|].
  destruct (Z.ltb_spec 255 v).
  - by rewrite Z.min_r, Z.max_r by lia.
  - rewrite Z.min_l, Z.max_r by lia. apply Z.mod_small. lia.
Qed.

Lemma clamp_byte_range v : 0 <= clamp_byte v <= 255.
Proof. unfold clamp_byte. lia. Qed.

(** C10: with the three fields valid, the correction applied and the three
    bytes saved are the parsed values clamped to [0, 255]; a value above
    255 gives 255. *)
Theorem correction_clamped (opens : bool) (req : Request) (d : Device) :
  hasArg req "correctionRed" = true ->
  isValidNumber (arg req "correctionRed") = true ->
  isValidNumber (arg req "correctionGreen") = true ->
  isValidNumber (arg req "correctionBlue") = true ->
  let r := clamp_byte (getNumber (trim (arg req "correctionRed"))) in
  let g := clamp_byte (getNumber (trim (arg req "correctionGreen"))) in
  let b := clamp_byte (getNumber (trim (arg req "correctionBlue"))) in
  exists d',
    handleColorCorrection opens req d
      = Done ("Color correction values applied."%string, d')
    /\ correction d' = mkCRGB r g b
    /\ (opens = true ->
        nvs d' !! (ns_color_corr, "corr_r"%string) = Some (UChar r)
        /\ nvs d' !! (ns_color_corr, "corr_g"%string) = Some (UChar g)
        /\ nvs d' !! (ns_color_corr, "corr_b"%string) = Some (UChar b))
    /\ (0 <= r <= 255 /\ 0 <= g <= 255 /\ 0 <= b <= 255)
    /\ (forall v, 255 < v -> clamp_byte v = 255).
Proof.
  intros Hr Vr Vg Vb r g b. unfold handleColorCorrection.
  rewrite Hr, !isValidNumber_trim, Vr, Vg, Vb. simpl.
  rewrite !constrain_byte. fold r g b.
  eexists. split; [reflexivity|]. simpl.
  split; [| split; [| split]].
  - unfold CRGB_rgb, to_uint8. f_equal; apply Z.mod_small;
      pose proof (clamp_byte_range (getNumber (trim (arg req "correctionRed"))));
      pose proof (clamp_byte_range (getNumber (trim (arg req "correctionGreen"))));
      pose proof (clamp_byte_range (getNumber (trim (arg req "correctionBlue"))));
      subst r g b; lia.
  - intros ->. unfold save_correction.
    repeat split; by simplify_map_eq.
  - repeat split; apply clamp_byte_range.
  - intros v Hv. unfold clamp_byte. lia.
Qed.

Lemma correction_clamped_witness :
  exists d',
    handleColorCorrection true
      [("correctionRed"%string, str "300"); ("correctionGreen"%string, str " 0x10");
       ("correctionBlue"%string, str "#ff")] (uniform_device 4 0)
      = Done ("Color correction values applied."%string, d')
    /\ correction d' = mkCRGB 255 16 255
    /\ (true = true ->
        nvs d' !! (ns_color_corr, "corr_r"%string) = Some (UChar 255)
        /\ nvs d' !! (ns_color_corr, "corr_g"%string) = Some (UChar 16)
        /\ nvs d' !! (ns_color_corr, "corr_b"%string) = Some (UChar 255))
    /\ (0 <= 255 <= 255 /\ 0 <= 16 <= 255 /\ 0 <= 255 <= 255)
    /\ (forall v, 255 < v -> clamp_byte v = 255).
Proof.
  exact (correction_clamped true
           [("correctionRed"%string, str "300"); ("correctionGreen"%string, str " 0x10");
            ("correctionBlue"%string, str "#ff")] (uniform_device 4 0)
           eq_refl eq_refl eq_refl eq_refl).
Defined.

Lemma arg_absent req name : hasArg req name = false -> arg req name = [].
Proof.
  induction req as [|[k v] req IH]; [done|].
  unfold hasArg. cbn [existsb arg fst].
  destruct (String.eqb k name); [done | exact IH].
Qed.

(** Only the red field is looked for: with green or blue absent the
    handler goes on and takes the absent field for 0. *)
Lemma handleColorCorrection_absent_green opens req d :
  hasArg req "correctionRed" = true ->
  hasArg req "correctionGreen" = false ->
  isValidNumber (arg req "correctionRed") = true ->
  isValidNumber (arg req "correctionBlue") = true ->
  exists r b,
    handleColorCorrection opens req d
    = Done ("Color correction values applied."%string,
            {| strip := strip d;
               correction := mkCRGB r 0 b;
               nvs := save_correction opens r 0 b (nvs d) |}).
Proof.
  intros Hr Hg Vr Vb. unfold handleColorCorrection.
  rewrite Hr, (arg_absent _ _ Hg), !isValidNumber_trim, Vr, Vb. cbn [andb].
  change (isValidNumber (trim [])) with true. cbn [andb].
  rewrite !constrain_byte. change (clamp_byte (getNumber (trim []))) with 0.
  exists (clamp_byte (getNumber (trim (arg req "correctionRed")))),
         (clamp_byte (getNumber (trim (arg req "correctionBlue")))).
  do 3 f_equal. unfold CRGB_rgb, to_uint8.
  f_equal; try reflexivity; apply Z.mod_small;
    match goal with |- context [clamp_byte ?v] =>
      pose proof (clamp_byte_range v); lia end.
Qed.

(** C7: a request without [correctionGreen] is not rejected. The handler
    tests [correctionRed] three times, reads the absent field as the empty
    string, takes it for 0, applies (255, 0, 255) and saves it. The
    gradient handler, which names each of its fields, refuses a request
    that lacks one. *)
Theorem missing_field_not_rejected :
  hasArg req_no_green "correctionGreen" = false
  /\ nvs (uniform_device 132 0) !! (ns_color_corr, "corr_g"%string) = Some (UChar 255)
  /\ (exists d',
       handleColorCorrection true req_no_green (uniform_device 132 0)
         = Done ("Color correction values applied."%string, d')
       /\ correction d' = mkCRGB 255 0 255
       /\ nvs d' !! (ns_color_corr, "corr_g"%string) = Some (UChar 0))
  /\ handleGradient 132 true []
       [("gradientLedsPerSegment"%string, str "4");
        ("gradientStartColor"%string, str "1");
        ("gradientEndColor"%string, str "3")]
       (uniform_device 132 0)
     = Done ("Error: Could not process form"%string, uniform_device 132 0).
Proof.
  split; [reflexivity|]. split; [by vm_compute|]. split; [| reflexivity].
  eexists. split; [reflexivity|]. split; [reflexivity | by vm_compute].
Qed.

(** ** Arrays *)

Lemma peek_Some {A} (a : list A) i x : a !! i = Some x -> peek a i = Done x.
Proof. unfold peek. by intros ->. Qed.

Lemma poke_lt {A} (a : list A) i x :
  (i < length a)%nat -> poke a i x = Done (<[i := x]> a).
Proof. unfold poke. intros H. by destruct (Nat.ltb_spec i (length a)); [|lia]. Qed.

Lemma poke_ge {A} (a : list A) i x :
  (length a <= i)%nat -> poke a i x = Trap (OutOfBounds i).
Proof. unfold poke. intros H. by destruct (Nat.ltb_spec i (length a)); [lia|]. Qed.

Lemma poke_middle {A} (front : list A) y rest i x :
  i = length front ->
  poke (front ++ y :: rest) i x = Done (front ++ x :: rest).
Proof.
  intros ->. rewrite poke_lt by (rewrite length_app; simpl; lia).
  f_equal. rewrite insert_app_r_alt by lia. by rewrite Nat.sub_diag.
Qed.

(** The copy loop writes [n] pixels from index [i] and nothing else. *)
Lemma copy_to_strip_spec n : forall i pixels leds,
  (i + n <= length pixels)%nat -> (i + n <= length leds)%nat ->
  copy_to_strip n i pixels leds
  = Done (take i leds
          ++ map (fun p => CRGB_code (Z.land p 16777215)) (take n (drop i pixels))
          ++ drop (i + n) leds).
Proof.
  induction n as [|n IH]; intros i pixels leds Hp Hl; simpl.
  - by rewrite Nat.add_0_r, take_drop.
  - destruct (lookup_lt_is_Some_2 pixels i) as [p Hpi]; [lia|].
    rewrite (peek_Some _ _ _ Hpi). simpl.
    rewrite poke_lt by lia. simpl.
    rewrite IH by (rewrite ?length_insert; lia).
    f_equal.
    rewrite (take_S_r _ _ (CRGB_code (Z.land p 16777215)))
      by (apply list_lookup_insert_eq; lia).
    rewrite take_insert_ge by lia.
    rewrite drop_insert_lt by lia.
    rewrite (drop_S _ _ _ Hpi). simpl.
    rewrite <- app_assoc. simpl. by rewrite Nat.add_succ_r.
Qed.

(** The solid-colour loop writes the same word and the same colour [n]
    times from index [i]. *)
Lemma paint_solid_spec v n : forall i pixels leds,
  (i + n <= length pixels)%nat -> (i + n <= length leds)%nat ->
  paint_solid n i v pixels leds
  = Done (take i pixels ++ replicate n v ++ drop (i + n) pixels,
          take i leds ++ replicate n (CRGB_code (Z.land v 16777215))
            ++ drop (i + n) leds).
Proof.
  induction n as [|n IH]; intros i pixels leds Hp Hl; cbn [paint_solid].
  - cbn [replicate app]. by rewrite Nat.add_0_r, !take_drop.
  - rewrite !poke_lt by lia. cbn [bind].
    rewrite IH by (rewrite ?length_insert; lia).
    rewrite (take_S_r _ _ v) by (apply list_lookup_insert_eq; lia).
    rewrite (take_S_r _ _ (CRGB_code (Z.land v 16777215)))
      by (apply list_lookup_insert_eq; lia).
    rewrite !take_insert_ge, !drop_insert_lt by lia.
    rewrite <- !app_assoc. cbn [app replicate].
    by rewrite Nat.add_succ_r.
Qed.

(** [handleSolidColor] on a valid colour: every pixel gets its low 24
    bits, every saved word the full value. *)
Lemma handleSolidColor_valid N opens junk color d :
  isValidNumber color = true -> length (strip d) = N ->
  handleSolidColor N opens junk (solid_request color) d
  = Done ("LEDs updated successfully!"%string,
          {| strip := replicate N (CRGB_code (Z.land (getNumber color) 16777215));
             correction := correction d;
             nvs := save_pixels N opens (replicate N (getNumber color)) (nvs d) |}).
Proof.
  intros Hv Hs. unfold handleSolidColor, solid_request. cbn [hasArg existsb arg fst].
  rewrite String.eqb_refl. cbn [orb]. rewrite Hv.
  rewrite paint_solid_spec by (rewrite ?length_resize; lia).
  cbn [bind fst snd]. rewrite !take_0. cbn [app].
  by rewrite !drop_ge, !app_nil_r by (rewrite ?length_resize; lia).
Qed.

(** ** Decimal colours *)

Lemma isValidNumber_digits s :
  forallb isdigit (trim s) = true -> isValidNumber s = true.
Proof.
  intros D. unfold isValidNumber.
  destruct (trim s) as [|c0 t]; [done|].
  pose proof D as D'. cbn [forallb] in D'. apply andb_prop in D' as [C0 D'].
  destruct (plain_not_sign c0) as (_ & _ & E0 & _); [by rewrite C0|].
  cbn [startsWith str list_ascii_of_string]. rewrite E0.
  destruct t as [|c1 t]; [by destruct (Ascii.eqb c0 "0")|].
  cbn [forallb] in D'. apply andb_prop in D' as [C1 _].
  destruct (plain_not_sign c1) as (_ & _ & _ & Ex & EX); [by rewrite C1|].
  rewrite Ex, EX. by destruct (Ascii.eqb c0 "0").
Qed.

(** C4, as stated, fails: ["4294967296"] is all digits and its value is 0
    modulo [2^24], yet the colour code it produces is [0xFFFFFF], and a
    solid fill with it is white, not black. *)
Lemma decimal_color_wraps_counterexample :
  forallb isdigit (trim (str "4294967296")) = true
  /\ decimal_value (trim (str "4294967296")) mod 2 ^ 24 = 0
  /\ Z.land (getNumber (str "4294967296")) 16777215 = 16777215
  /\ strip_after
       (handleSolidColor 132 true [] (solid_request (str "4294967296"))
          (uniform_device 132 0))
     = Some (replicate 132 (mkCRGB 255 255 255)).
Proof.
  split; [reflexivity|]. split; [reflexivity|]. split; [reflexivity|].
  rewrite handleSolidColor_valid; reflexivity.
Qed.

(** C4, amended: for a string that is all decimal digits once trimmed, the
    24-bit colour code made from it, trimmed or not, is its decimal value
    modulo [2^24] as long as that value is below [2^32]; from [2^32] on
    [strtoul] saturates and the colour code is [0xFFFFFF]. A solid fill
    with the string puts that colour on every pixel. *)
Theorem decimal_color_value (s : Str) :
  forallb isdigit (trim s) = true ->
  let color :=
    if decimal_value (trim s) <? 2 ^ 32
    then decimal_value (trim s) mod 2 ^ 24
    else 16777215 in
  Z.land (getNumber s) 16777215 = color
  /\ Z.land (getNumber (trim s)) 16777215 = color
  /\ forall N opens junk d,
       length (strip d) = N ->
       strip_after (handleSolidColor N opens junk (solid_request s) d)
       = Some (replicate N (CRGB_code color)).
Proof.
  intros D color.
  assert (forall u, trim u = trim s -> Z.land (getNumber u) 16777215 = color) as K.
  { intros u Hu. rewrite getNumber_decimal by (by rewrite Hu).
    rewrite Hu. subst color. unfold ULONG_MAX.
    destruct (Z.ltb_spec (decimal_value (trim s)) (2 ^ 32)).
    - rewrite Z.min_l by lia. apply land_low24.
    - rewrite Z.min_r by lia. reflexivity. }
  split; [by apply K|]. split; [apply K, trim_idem|].
  intros N opens junk d Hs.
  rewrite handleSolidColor_valid by (done || by apply isValidNumber_digits).
  cbn [strip_after strip]. by rewrite K.
Qed.

Lemma decimal_color_value_witness :
  Z.land (getNumber (str " 16777473 ")) 16777215 = 257
  /\ Z.land (getNumber (trim (str " 16777473 "))) 16777215 = 257
  /\ forall N opens junk d,
       length (strip d) = N ->
       strip_after (handleSolidColor N opens junk (solid_request (str " 16777473 ")) d)
       = Some (replicate N (CRGB_code 257)).
Proof. exact (decimal_color_value (str " 16777473 ") eq_refl). Defined.

(** ** The token loop of [handleSetPixels] *)

Lemma indexOf_comma_app t rest :
  indexOf "," t = None ->
  indexOf "," (t ++ ","%char :: rest) = Some (length t).
Proof.
  induction t as [|c t IH]; simpl; [done|].
  destruct (Ascii.eqb c ","); [done|].
  destruct (indexOf "," t); [done|]. intros _. by rewrite IH.
Qed.

Lemma drop_past_comma (t : Str) c rest :
  drop (S (length t)) (t ++ c :: rest) = rest.
Proof. induction t as [|c' t IH]; simpl; [by rewrite drop_0 | exact IH]. Qed.

Lemma join_commas_cons t rest :
  rest <> [] -> join_commas (t :: rest) = t ++ ","%char :: join_commas rest.
Proof. by destruct rest. Qed.

Lemma indexOf_Some_lt ch s pos :
  indexOf ch s = Some pos -> (pos < length s)%nat.
Proof.
  revert pos. induction s as [|c s IH]; simpl; intros pos; [done|].
  destruct (Ascii.eqb c ch); [intros [= <-]; lia|].
  destruct (indexOf ch s) as [q|]; [|done].
  simpl. intros [= <-]. specialize (IH q eq_refl). lia.
Qed.

(** More fuel than the length of [values] changes nothing: the loop
    always ends by itself. *)
Lemma scan_tokens_fuel N fuel1 : forall fuel2 values idx pixels,
  (length values <= fuel1)%nat -> (length values <= fuel2)%nat ->
  scan_tokens N fuel1 values idx pixels = scan_tokens N fuel2 values idx pixels.
Proof.
  induction fuel1 as [|fuel1 IH]; intros fuel2 values idx pixels H1 H2.
  - destruct values; [|simpl in H1; lia]. by destruct fuel2.
  - destruct fuel2 as [|fuel2].
    + destruct values; [done | simpl in H2; lia].
    + simpl. destruct (indexOf "," values) as [pos|] eqn:E; [|done].
      apply indexOf_Some_lt in E.
      destruct (negb _); [done|].
      destruct (poke pixels idx _); simpl; [|done].
      destruct (N <=? S idx)%nat; [done|].
      apply IH; rewrite length_drop; lia.
Qed.

(** The loop on a list of good entries, all but the last of which fit
    below [N]: it stores them in order and stops at the last one. *)
Lemma scan_tokens_join N last_ front : forall vals fuel,
  Forall entry_ok front -> entry_ok last_ ->
  (length vals + length front < N)%nat ->
  (length (join_commas (front ++ [last_])) <= fuel)%nat ->
  scan_tokens N fuel (join_commas (front ++ [last_])) (length vals)
     (vals ++ replicate (N - length vals) 0)
  = Done (mkScan last_ (length vals + length front) true
            (vals ++ map (fun t => getNumber (trim t)) front
                  ++ replicate (N - length vals - length front) 0)).
Proof.
  induction front as [|t front IH]; intros vals fuel Hf Hl Hn Hfuel.
  - simpl in *. destruct Hl as [Hc _].
    rewrite !Nat.add_0_r, Nat.sub_0_r. destruct fuel; simpl; by rewrite ?Hc.
  - apply Forall_cons in Hf as [[Hc Hv] Hf].
    change ((t :: front) ++ [last_]) with (t :: (front ++ [last_])) in *.
    rewrite join_commas_cons in * by (by destruct front).
    destruct fuel as [|fuel]; [rewrite length_app in Hfuel; simpl in Hfuel; lia|].
    simpl in Hn. cbn [scan_tokens].
    rewrite (indexOf_comma_app _ _ Hc), take_app_length, drop_past_comma.
    rewrite isValidNumber_trim, Hv. cbn [negb].
    destruct (N - length vals)%nat as [|m] eqn:Em; [lia|].
    cbn [replicate]. rewrite poke_middle by done. cbn [bind].
    destruct (Nat.leb_spec N (S (length vals))); [lia|].
    specialize (IH (vals ++ [getNumber (trim t)]) fuel Hf Hl).
    rewrite length_app in IH. simpl in IH.
    replace (N - (length vals + 1))%nat with m in IH by lia.
    rewrite <- !app_assoc in IH. simpl in IH.
    rewrite Nat.add_1_r in IH. rewrite IH.
    + simpl. do 2 f_equal. lia.
    + lia.
    + rewrite length_app in Hfuel. simpl in Hfuel. lia.
Qed.

(** What [handleSetPixels] does with a list of at most [N] good entries. *)
Lemma handleSetPixels_fits N opens req front last_ d :
  hasArg req "pixelValues" = true ->
  arg req "pixelValues" = join_commas (front ++ [last_]) ->
  (length front < N)%nat ->
  Forall entry_ok front -> entry_ok last_ ->
  length (strip d) = N ->
  handleSetPixels N opens req d
  = Done ("LEDs updated successfully!"%string,
          {| strip := map pixel_of (front ++ [last_])
                      ++ drop (S (length front)) (strip d);
             correction := correction d;
             nvs := save_pixels N opens
                      (map (fun t => getNumber (trim t)) (front ++ [last_])
                       ++ replicate (N - S (length front)) 0) (nvs d) |}).
Proof.
  intros Ha Hv Hn Hf Hl Hs. unfold handleSetPixels. rewrite Ha, Hv.
  pose proof (scan_tokens_join N last_ front [] (length (join_commas (front ++ [last_])))
                Hf Hl) as K.
  simpl in K. rewrite Nat.sub_0_r in K. rewrite K by lia. clear K.
  cbn [bind sc_valid sc_values sc_idx sc_pixels].
  destruct Hl as [_ ->]. cbn [andb].
  destruct (N - length front)%nat as [|m] eqn:Em; [lia|].
  cbn [replicate].
  rewrite poke_middle by (by rewrite length_map). cbn [bind].
  replace (map (fun t => getNumber (trim t)) front
           ++ getNumber (trim last_) :: replicate m 0)
    with (map (fun t => getNumber (trim t)) (front ++ [last_]) ++ replicate m 0)
    by (by rewrite map_app, <- app_assoc).
  replace (N - S (length front))%nat with m by lia.
  rewrite copy_to_strip_spec.
  - cbn [bind]. rewrite take_0, drop_0. cbn [app].
    rewrite take_app_length' by (rewrite length_map, length_app; simpl; lia).
    by rewrite map_map.
  - rewrite length_app, length_map, length_app, length_replicate. simpl. lia.
  - lia.
Qed.

(** C9: a list of [k] good entries, [1 <= k <= N], overwrites pixels
    [0 .. k-1] of the strip with the parsed colours and leaves every pixel
    from [k] on as it was. *)
Theorem set_pixels_keeps_tail (N : nat) (opens : bool) (req : Request)
    (tokens : list Str) (d : Device) :
  hasArg req "pixelValues" = true ->
  arg req "pixelValues" = join_commas tokens ->
  tokens <> [] -> (length tokens <= N)%nat ->
  Forall entry_ok tokens ->
  length (strip d) = N ->
  exists d',
    handleSetPixels N opens req d = Done ("LEDs updated successfully!"%string, d')
    /\ strip d' = map pixel_of tokens ++ drop (length tokens) (strip d)
    /\ (forall i t, tokens !! i = Some t -> strip d' !! i = Some (pixel_of t))
    /\ (forall i, (length tokens <= i)%nat -> strip d' !! i = strip d !! i).
Proof.
  intros Ha Hv Hne Hk Hok Hs.
  destruct (exists_last Hne) as [front [last_ ->]].
  rewrite length_app in Hk. simpl in Hk.
  apply Forall_app in Hok as [Hf Hl]. apply Forall_cons in Hl as [Hl _].
  eexists. split; [apply handleSetPixels_fits; try done; lia|].
  cbn [strip]. rewrite length_app. simpl. rewrite Nat.add_1_r.
  split; [done|]. split.
  - intros i t Hi. apply lookup_app_l_Some. by rewrite list_lookup_fmap, Hi.
  - intros i Hi. rewrite lookup_app_r by (rewrite length_map, length_app; simpl; lia).
    rewrite lookup_drop, length_map, length_app. simpl. f_equal. lia.
Qed.

(** What the loop leaves when it stops because the array is full: [N]
    entries stored, the rest of the string, whatever it is, in [values]. *)
Lemma scan_tokens_break N rest_ front : forall vals fuel,
  Forall entry_ok front -> front <> [] ->
  (length vals + length front = N)%nat ->
  (length (join_commas (front ++ [rest_])) <= fuel)%nat ->
  scan_tokens N fuel (join_commas (front ++ [rest_])) (length vals)
     (vals ++ replicate (N - length vals) 0)
  = Done (mkScan rest_ N true (vals ++ map (fun t => getNumber (trim t)) front)).
Proof.
  induction front as [|t front IH]; intros vals fuel Hf Hne Hn Hfuel; [done|].
  apply Forall_cons in Hf as [[Hc Hv] Hf].
  change ((t :: front) ++ [rest_]) with (t :: (front ++ [rest_])) in *.
  rewrite join_commas_cons in * by (by destruct front).
  destruct fuel as [|fuel]; [rewrite length_app in Hfuel; simpl in Hfuel; lia|].
  simpl in Hn. cbn [scan_tokens].
  rewrite (indexOf_comma_app _ _ Hc), take_app_length, drop_past_comma.
  rewrite isValidNumber_trim, Hv. cbn [negb].
  destruct (N - length vals)%nat as [|m] eqn:Em; [lia|].
  cbn [replicate]. rewrite poke_middle by done. cbn [bind].
  destruct (decide (front = [])) as [->|Hne'].
  - simpl in *. destruct (Nat.leb_spec N (S (length vals))); [|lia].
    replace m with 0%nat by lia. do 2 f_equal. lia.
  - assert (0 < length front)%nat by (destruct front; simpl; [done | lia]).
    destruct (Nat.leb_spec N (S (length vals))); [lia|].
    specialize (IH (vals ++ [getNumber (trim t)]) fuel Hf Hne').
    rewrite length_app in IH. cbn [length] in IH.
    replace (N - (length vals + 1))%nat with m in IH by lia.
    rewrite <- !app_assoc in IH. cbn [app] in IH.
    rewrite Nat.add_1_r in IH. rewrite IH; [done | lia |].
    rewrite length_app in Hfuel. cbn [length] in Hfuel. lia.
Qed.

(** One entry too many: the entry after the [N]th is written at index [N]. *)
Lemma handleSetPixels_one_over N opens req front last_ d :
  hasArg req "pixelValues" = true ->
  arg req "pixelValues" = join_commas (front ++ [last_]) ->
  length front = N -> front <> [] ->
  Forall entry_ok front -> isValidNumber last_ = true ->
  handleSetPixels N opens req d = Trap (OutOfBounds N).
Proof.
  intros Ha Hv Hn Hne Hf Hl. unfold handleSetPixels. rewrite Ha, Hv.
  pose proof (scan_tokens_break N last_ front []
                (length (join_commas (front ++ [last_]))) Hf Hne) as K.
  simpl in K. rewrite Nat.sub_0_r in K. rewrite K by lia. clear K.
  cbn [bind sc_valid sc_values sc_idx sc_pixels]. rewrite Hl. cbn [andb].
  by rewrite poke_ge by (rewrite length_map; lia).
Qed.

(** Two or more too many: what is left after the [N]th entry still holds
    a comma, fails validation, and the whole command is refused. *)
Lemma handleSetPixels_many_over N opens req front rest_ d :
  hasArg req "pixelValues" = true ->
  arg req "pixelValues" = join_commas (front ++ [rest_]) ->
  length front = N -> front <> [] ->
  Forall entry_ok front -> isValidNumber rest_ = false ->
  handleSetPixels N opens req d
  = Done ("Error: One or more values are invalid. Please enter only decimal or hex values."%string, d).
Proof.
  intros Ha Hv Hn Hne Hf Hl. unfold handleSetPixels. rewrite Ha, Hv.
  pose proof (scan_tokens_break N rest_ front []
                (length (join_commas (front ++ [rest_]))) Hf Hne) as K.
  simpl in K. rewrite Nat.sub_0_r in K. rewrite K by lia. clear K.
  cbn [bind sc_valid sc_values sc_idx sc_pixels]. by rewrite Hl.
Qed.

Lemma set_pixels_keeps_tail_witness :
  exists d',
    handleSetPixels 5 true (pixels_request (str " 1,#ff")) (uniform_device 5 65280)
      = Done ("LEDs updated successfully!"%string, d')
    /\ strip d' = map pixel_of [str " 1"; str "#ff"]
                  ++ drop (length [str " 1"; str "#ff"]) (strip (uniform_device 5 65280))
    /\ (forall i t, [str " 1"; str "#ff"] !! i = Some t ->
                    strip d' !! i = Some (pixel_of t))
    /\ (forall i, (length [str " 1"; str "#ff"] <= i)%nat ->
                  strip d' !! i = strip (uniform_device 5 65280) !! i).
Proof.
  apply (set_pixels_keeps_tail 5 true (pixels_request (str " 1,#ff"))
           [str " 1"; str "#ff"] (uniform_device 5 65280)).
  - reflexivity.
  - reflexivity.
  - discriminate.
  - simpl. lia.
  - repeat constructor.
  - reflexivity.
Defined.

(** C1: after a solid red strip, the list ["1,2"] succeeds and leaves every
    pixel from 2 to 131 red on the strip while the saved blob holds 0
    (black) at each of these indices: strip and saved state disagree, and
    the next boot shows pixels 2 to 131 black. *)
Theorem set_pixels_tail_not_saved :
  exists d' ws,
    handleSetPixels 132 true (pixels_request (str "1,2")) (uniform_device 132 16711680)
      = Done ("LEDs updated successfully!"%string, d')
    /\ saved_pixels d' = Some ws
    /\ (forall i, (2 <= i < 132)%nat ->
          strip d' !! i = Some (mkCRGB 255 0 0) /\ ws !! i = Some 0)
    /\ setup_pixels 132 true (nvs d')
       = Done ([mkCRGB 0 0 1; mkCRGB 0 0 2] ++ replicate 130 black).
Proof.
  eexists. eexists. split.
  { apply (handleSetPixels_fits 132 true _ [str "1"] (str "2"));
      try reflexivity; [simpl; lia | repeat constructor | repeat constructor]. }
  split.
  { unfold saved_pixels, save_pixels. cbn [nvs]. rewrite lookup_insert_eq.
    reflexivity. }
  split; [| by vm_compute].
  intros i Hi. cbn [strip uniform_device]. split.
  - rewrite lookup_app_r by (simpl; lia).
    rewrite lookup_drop. apply lookup_replicate_2. simpl. lia.
  - rewrite take_ge by (rewrite length_app, length_replicate; simpl; lia).
    rewrite lookup_app_r by (simpl; lia).
    apply lookup_replicate_2. simpl. lia.
Qed.

(** C3: with 132 pixels, a list of 133 good entries is not cut short at
    132: the 133rd value is written to [pixels[132]], outside the array;
    and a list of 134 is refused as invalid, the strip left as it was. *)
Theorem set_pixels_excess_not_ignored :
  handleSetPixels 132 true
    (pixels_request (join_commas (replicate 133 (str "7"))))
    (uniform_device 132 0)
  = Trap (OutOfBounds 132)
  /\ handleSetPixels 132 true
       (pixels_request (join_commas (replicate 134 (str "7"))))
       (uniform_device 132 0)
     = Done ("Error: One or more values are invalid. Please enter only decimal or hex values."%string,
             uniform_device 132 0).
Proof.
  split.
  - apply (handleSetPixels_one_over 132 true _ (replicate 132 (str "7")) (str "7"));
      try reflexivity; [discriminate|].
    apply Forall_replicate. by split.
  - apply (handleSetPixels_many_over 132 true _ (replicate 132 (str "7")) (str "7,7"));
      try reflexivity; [discriminate|].
    apply Forall_replicate. by split.
Qed.

(** ** Colour codes and channels *)

Lemma testbit_ones k n :
  0 <= k -> Z.testbit (Z.ones k) n = (0 <=? n) && (n <? k).
Proof.
  intros Hk. destruct (Z.leb_spec 0 n).
  - by rewrite Z.testbit_ones_nonneg.
  - by rewrite Z.testbit_neg_r.
Qed.

Lemma channel_byte x k : 0 <= Z.land (Z.shiftr x k) 255 <= 255.
Proof.
  change 255 with (Z.ones 8) at 1 2. rewrite Z.land_ones by lia.
  pose proof (Z.mod_pos_bound (Z.shiftr x k) (2 ^ 8)). lia.
Qed.

Lemma CRGB_code_bytes x :
  0 <= red (CRGB_code x) <= 255 /\ 0 <= green (CRGB_code x) <= 255
  /\ 0 <= blue (CRGB_code x) <= 255.
Proof.
  unfold CRGB_code. cbn [red green blue]. repeat split;
    try apply channel_byte; apply (channel_byte x 0).
Qed.

(** Masked to 24 bits, [as_uint32_t] undoes [CRGB(colorcode)]. *)
Lemma as_uint32_t_code x :
  Z.land (as_uint32_t (CRGB_code x)) 16777215 = Z.land x 16777215.
Proof.
  unfold as_uint32_t, CRGB_code. cbn [red green blue].
  change 16777215 with (Z.ones 24). change 255 with (Z.ones 8).
  change 4278190080 with (Z.shiftl (Z.ones 8) 24).
  apply Z.bits_inj'. intros n Hn.
  rewrite !Z.land_spec, !Z.lor_spec, !Z.shiftl_spec, !Z.land_spec by lia.
  rewrite !testbit_ones by lia.
  repeat match goal with
         | |- context [Z.leb ?a ?b] => destruct (Z.leb_spec a b)
         | |- context [Z.ltb ?a ?b] => destruct (Z.ltb_spec a b)
         end;
    try lia;
    rewrite ?andb_false_r, ?andb_true_r, ?orb_false_r, ?orb_false_l;
    try reflexivity;
    rewrite Z.shiftr_spec by lia; f_equal; lia.
Qed.

Lemma channel_roundtrip r :
  0 <= r <= 255 -> to_uint8 (Z.shiftr (to_uint16 (Z.shiftl r 8)) 8) = r.
Proof.
  intros Hr. unfold to_uint8, to_uint16.
  rewrite Z.shiftl_mul_pow2, Z.shiftr_div_pow2 by lia.
  change (2 ^ 8) with 256.
  rewrite (Z.mod_small (r * 256)) by lia.
  rewrite Z.div_mul by lia. apply Z.mod_small. lia.
Qed.

(** ** The gradient *)

(** A span of one pixel: the pixel takes the span's start colour. *)
Lemma fill_gradient_RGB_span_single leds i c1 c2 :
  (i < length leds)%nat ->
  0 <= red c1 <= 255 -> 0 <= green c1 <= 255 -> 0 <= blue c1 <= 255 ->
  fill_gradient_RGB_span leds i c1 i c2 = Done (<[i := c1]> leds).
Proof.
  intros Hi Hr Hg Hb. unfold fill_gradient_RGB_span.
  rewrite Nat.ltb_irrefl, Nat.sub_diag. cbn [ramp].
  rewrite poke_lt by done. cbn [bind]. unfold CRGB_rgb.
  rewrite !channel_roundtrip by done. by destruct c1.
Qed.

(** With one LED to fill, the second half overwrites the first: the LED
    ends up with the middle colour. *)
Lemma fill_gradient_RGB_one leds c1 c2 c3 :
  (0 < length leds)%nat ->
  fill_gradient_RGB leds 1 (CRGB_code c1) (CRGB_code c2) (CRGB_code c3)
  = Done (<[0%nat := CRGB_code c2]> leds).
Proof.
  intros Hl. unfold fill_gradient_RGB.
  change (Z.to_nat (1 / 2)) with 0%nat.
  change (Z.to_nat (to_uint16 (1 - 1))) with 0%nat.
  destruct (CRGB_code_bytes c1) as (? & ? & ?).
  destruct (CRGB_code_bytes c2) as (? & ? & ?).
  rewrite fill_gradient_RGB_span_single by done. cbn [bind].
  rewrite fill_gradient_RGB_span_single by (by rewrite ?length_insert).
  by rewrite list_insert_insert_eq.
Qed.

(** The inner loop, while there is room: [j] copies of the colour of
    segment [i]. *)
Lemma fill_segment_spec N leds i c j : forall idx pixels,
  leds !! i = Some c ->
  (idx + j <= N)%nat -> length pixels = N ->
  fill_segment N j leds i idx pixels
  = Done ((idx + j)%nat,
          take idx pixels
          ++ replicate j (Z.land (as_uint32_t c) 16777215)
          ++ drop (idx + j) pixels).
Proof.
  induction j as [|j IH]; intros idx pixels Hc Hn Hp; cbn [fill_segment].
  - cbn [replicate app]. by rewrite Nat.add_0_r, take_drop.
  - destruct (Nat.ltb_spec idx N); [|lia].
    rewrite (peek_Some _ _ _ Hc). cbn [bind].
    rewrite poke_lt by lia. cbn [bind].
    rewrite IH by (rewrite ?length_insert; done || lia).
    rewrite (take_S_r _ _ (Z.land (as_uint32_t c) 16777215))
      by (apply list_lookup_insert_eq; lia).
    rewrite take_insert_ge by lia.
    rewrite drop_insert_lt by lia.
    rewrite <- app_assoc. cbn [app replicate].
    by rewrite Nat.add_succ_r.
Qed.

Lemma num_segs_of_full N :
  0 < Z.of_nat N <= 65535 -> num_segs_of N (Z.of_nat N) = Done 1.
Proof.
  intros HN. unfold num_segs_of, udiv, to_uint32.
  destruct (Z.eqb_spec (Z.of_nat N) 0); [lia|].
  rewrite Z.mod_small by lia. f_equal.
  symmetry. apply (Z.div_unique_pos _ _ 1 (Z.of_nat N - 1)); lia.
Qed.

Lemma num_segs_of_zero N : num_segs_of N 0 = Trap DivideByZero.
Proof. reflexivity. Qed.

(** The gradient handler on a segment length equal to the pixel count. *)
Lemma handleGradient_full N opens junk req d :
  0 < Z.of_nat N <= 65535 ->
  hasArg req "gradientLedsPerSegment" = true ->
  hasArg req "gradientStartColor" = true ->
  hasArg req "gradientMiddleColor" = true ->
  hasArg req "gradientEndColor" = true ->
  isValidNumber (arg req "gradientLedsPerSegment") = true ->
  isValidNumber (arg req "gradientStartColor") = true ->
  isValidNumber (arg req "gradientMiddleColor") = true ->
  isValidNumber (arg req "gradientEndColor") = true ->
  getNumber (arg req "gradientLedsPerSegment") = Z.of_nat N ->
  length (strip d) = N ->
  handleGradient N opens junk req d
  = let mid := Z.land (getNumber (arg req "gradientMiddleColor")) 16777215 in
    Done ("LEDs updated successfully!"%string,
          {| strip := replicate N (CRGB_code mid);
             correction := correction d;
             nvs := save_pixels N opens (replicate N mid) (nvs d) |}).
Proof.
  intros HN H1 H2 H3 H4 V1 V2 V3 V4 Hlps Hs. unfold handleGradient.
  rewrite H1, H2, H3, H4, V1, V2, V3, V4, Hlps. cbn [andb].
  rewrite Z.ltb_irrefl, num_segs_of_full by done. cbn [bind].
  change (to_uint16 1) with 1. change (Z.to_nat 1) with 1%nat.
  rewrite fill_gradient_RGB_one by lia. cbn [bind fill_segments].
  rewrite Nat2Z.id.
  set (mid := Z.land (getNumber (arg req "gradientMiddleColor")) 16777215).
  assert (<[0%nat := CRGB_code mid]> (strip d) !! 0%nat = Some (CRGB_code mid)) as Hc
    by (apply list_lookup_insert_eq; lia).
  rewrite (peek_Some _ _ _ Hc). cbn [bind].
  rewrite (fill_segment_spec N _ _ _ _ _ _ Hc) by (rewrite ?length_resize; done || lia).
  cbn [bind fst snd]. rewrite take_0. cbn [app].
  rewrite drop_ge, app_nil_r by (rewrite length_resize; lia).
  rewrite as_uint32_t_code.
  assert (Z.land mid 16777215 = mid) as Hm.
  { subst mid. rewrite <- Z.land_assoc. by rewrite Z.land_diag. }
  rewrite Hm.
  rewrite copy_to_strip_spec
    by (rewrite ?length_replicate, ?length_insert; lia).
  cbn [bind]. rewrite take_0, drop_0. cbn [app].
  rewrite take_ge by (rewrite length_replicate; lia).
  rewrite drop_ge, app_nil_r by (rewrite length_insert; lia).
  change (map ?f ?l) with (f <$> l). rewrite fmap_replicate, Hm.
  reflexivity.
Qed.

(** A segment length that parses to 0 reaches the division. *)
Lemma handleGradient_zero N opens junk req d :
  hasArg req "gradientLedsPerSegment" = true ->
  hasArg req "gradientStartColor" = true ->
  hasArg req "gradientMiddleColor" = true ->
  hasArg req "gradientEndColor" = true ->
  isValidNumber (arg req "gradientLedsPerSegment") = true ->
  isValidNumber (arg req "gradientStartColor") = true ->
  isValidNumber (arg req "gradientMiddleColor") = true ->
  isValidNumber (arg req "gradientEndColor") = true ->
  getNumber (arg req "gradientLedsPerSegment") = 0 ->
  handleGradient N opens junk req d = Trap DivideByZero.
Proof.
  intros H1 H2 H3 H4 V1 V2 V3 V4 Hlps. unfold handleGradient.
  rewrite H1, H2, H3, H4, V1, V2, V3, V4, Hlps. cbn [andb].
  destruct (Z.ltb_spec (Z.of_nat N) 0); [lia|].
  by rewrite num_segs_of_zero.
Qed.

(** C8, as stated, fails: with 132 pixels and a segment length of 132 the
    strip is not 132 copies of the start colour (red); it is 132 copies of
    the middle colour (green). *)
Lemma gradient_full_length_counterexample :
  getNumber (str "132") = 132
  /\ strip_after
       (handleGradient 132 true []
          (gradient_request (str "132") (str "#ff0000") (str "#00ff00") (str "#0000ff"))
          (uniform_device 132 0))
     = Some (replicate 132 (mkCRGB 0 255 0))
  /\ strip_after
       (handleGradient 132 true []
          (gradient_request (str "132") (str "#ff0000") (str "#00ff00") (str "#0000ff"))
          (uniform_device 132 0))
     <> Some (replicate 132 (CRGB_code (Z.land (getNumber (str "#ff0000")) 16777215))).
Proof.
  split; [reflexivity|].
  rewrite handleGradient_full by (reflexivity || done).
  split; [reflexivity | by vm_compute].
Qed.

(** C8, amended: with the segment length equal to the pixel count [N]
    there is exactly one segment, and the gradient leaves [N] copies of
    the middle colour (its low 24 bits) on the strip and in the saved
    blob; the start and end colours affect no pixel. *)
Theorem gradient_full_length_is_mid (N : nat) (opens : bool) (junk : list Z)
    (leds_per_seg start mid end_ : Str) (d : Device) :
  0 < Z.of_nat N <= 65535 ->
  isValidNumber leds_per_seg = true ->
  isValidNumber start = true ->
  isValidNumber mid = true ->
  isValidNumber end_ = true ->
  getNumber leds_per_seg = Z.of_nat N ->
  length (strip d) = N ->
  num_segs_of N (getNumber leds_per_seg) = Done 1
  /\ handleGradient N opens junk (gradient_request leds_per_seg start mid end_) d
     = Done ("LEDs updated successfully!"%string,
             {| strip := replicate N (CRGB_code (Z.land (getNumber mid) 16777215));
                correction := correction d;
                nvs := save_pixels N opens
                         (replicate N (Z.land (getNumber mid) 16777215)) (nvs d) |}).
Proof.
  intros HN V1 V2 V3 V4 Hlps Hs. split.
  - rewrite Hlps. by apply num_segs_of_full.
  - by rewrite handleGradient_full.
Qed.

Lemma gradient_full_length_is_mid_witness :
  num_segs_of 6 (getNumber (str "6")) = Done 1
  /\ handleGradient 6 true [1; 2]
       (gradient_request (str "6") (str "#ff0000") (str "0x00ff00") (str "255"))
       (uniform_device 6 0)
     = Done ("LEDs updated successfully!"%string,
             {| strip := replicate 6 (CRGB_code (Z.land (getNumber (str "0x00ff00")) 16777215));
                correction := correction (uniform_device 6 0);
                nvs := save_pixels 6 true
                         (replicate 6 (Z.land (getNumber (str "0x00ff00")) 16777215))
                         (nvs (uniform_device 6 0)) |}).
Proof.
  apply (gradient_full_length_is_mid 6 true [1; 2]
           (str "6") (str "#ff0000") (str "0x00ff00") (str "255") (uniform_device 6 0));
    try reflexivity.
  split; [reflexivity | discriminate].
Defined.

(** C2: a segment length of ["0"] passes validation and the range check,
    and the handler divides by it. *)
Theorem gradient_zero_length_divides :
  isValidNumber (str "0") = true
  /\ getNumber (str "0") = 0
  /\ handleGradient 132 true []
       (gradient_request (str "0") (str "#ff0000") (str "#00ff00") (str "#0000ff"))
       (uniform_device 132 0)
     = Trap DivideByZero.
Proof.
  split; [reflexivity|]. split; [reflexivity|].
  by apply handleGradient_zero.
Qed.

(** * Further properties of the sketch *)

(** ** [separateRgb] *)

Ltac bit_cases :=
  repeat match goal with
         | |- context [Z.leb ?a ?b] => destruct (Z.leb_spec a b)
         | |- context [Z.ltb ?a ?b] => destruct (Z.ltb_spec a b)
         end;
  try lia;
  rewrite ?andb_false_r, ?andb_true_r, ?orb_false_r, ?orb_false_l;
  try reflexivity.

Lemma land_255_byte x : to_uint8 (Z.land x 255) = Z.land x 255.
Proof.
  unfold to_uint8. apply Z.mod_small.
  pose proof (channel_byte x 0) as H. rewrite Z.shiftr_0_r in H. lia.
Qed.

Lemma join_channels x :
  Z.lor (Z.lor (Z.shiftl (Z.land (Z.shiftr x 16) 255) 16)
               (Z.shiftl (Z.land (Z.shiftr x 8) 255) 8))
        (Z.land x 255)
  = Z.land x 16777215.
Proof.
  change 16777215 with (Z.ones 24). change 255 with (Z.ones 8).
  apply Z.bits_inj'. intros n Hn.
  rewrite !Z.lor_spec, !Z.shiftl_spec, !Z.land_spec by lia.
  rewrite !testbit_ones by lia.
  bit_cases; rewrite Z.shiftr_spec by lia; f_equal; lia.
Qed.

(** X1: [separateRgb] gives three bytes, the same three the strip colour
    [CRGB(hexColor)] has, and putting them back together as
    [(r << 16) | (g << 8) | b] gives the low 24 bits of [hexColor]. *)
Theorem separateRgb_roundtrip (hexColor : Z) :
  let '(r, g, b) := separateRgb hexColor in
  (0 <= r <= 255 /\ 0 <= g <= 255 /\ 0 <= b <= 255)
  /\ CRGB_code hexColor = mkCRGB r g b
  /\ Z.lor (Z.lor (Z.shiftl r 16) (Z.shiftl g 8)) b = Z.land hexColor 16777215.
Proof.
  unfold separateRgb.
  rewrite (land_255_byte (Z.shiftr hexColor 16)), (land_255_byte (Z.shiftr hexColor 8)),
    (land_255_byte hexColor).
  split; [| split].
  - repeat split; try apply channel_byte; apply (channel_byte hexColor 0).
  - reflexivity.
  - apply join_channels.
Qed.

(** ** Number parsing *)


Lemma xdigit_facts c :
  isxdigit c = true ->
  digit_of c = Some (hex_digit_value c)
  /\ 0 <= hex_digit_value c < 16
  /\ isspace c = false
  /\ Ascii.eqb c "-" = false /\ Ascii.eqb c "+" = false
  /\ Ascii.eqb c "x" = false /\ Ascii.eqb c "X" = false.
Proof. each_char c. Qed.

Lemma accumulate_hex d acc :
  forallb isxdigit d = true ->
  accumulate 16 acc d = fold_left (fun a c => a * 16 + hex_digit_value c) d acc.
Proof.
  revert acc. induction d as [|c d IH]; intros acc D; [done|].
  cbn [forallb] in D. apply andb_prop in D as [C D].
  destruct (xdigit_facts c C) as (E & R & _).
  cbn [accumulate fold_left]. rewrite E.
  destruct (Z.ltb_spec (hex_digit_value c) 16); [|lia]. by apply IH.
Qed.

Lemma strip_sign_xdigits d :
  forallb isxdigit d = true -> strip_sign d = (false, d).
Proof.
  destruct d as [|c d]; [done|]. cbn [forallb]. intros [C _]%andb_prop.
  destruct (xdigit_facts c C) as (_ & _ & _ & Em & Ep & _).
  unfold strip_sign. by rewrite Em, Ep.
Qed.

Lemma strip_0x_xdigits d :
  forallb isxdigit d = true -> strip_0x 16 d = d.
Proof.
  destruct d as [|c0 [|c1 d]]; [done | done |]. cbn [forallb].
  intros [_ [C _]%andb_prop]%andb_prop.
  destruct (xdigit_facts c1 C) as (_ & _ & _ & _ & _ & Ex & EX).
  unfold strip_0x. rewrite Ex, EX. cbn [orb]. by rewrite andb_false_r.
Qed.

Lemma skip_space_xdigits d :
  forallb isxdigit d = true -> skip_space d = d.
Proof.
  destruct d as [|c d]; [done|]. cbn [forallb]. intros [C _]%andb_prop.
  destruct (xdigit_facts c C) as (_ & _ & Es & _).
  cbn [skip_space]. by rewrite Es.
Qed.

Lemma strtoul_hex d :
  forallb isxdigit d = true ->
  strtoul d 16 = Z.min (hex_value d) ULONG_MAX.
Proof.
  intros D. unfold strtoul.
  rewrite (skip_space_xdigits _ D), (strip_sign_xdigits _ D), (strip_0x_xdigits _ D).
  rewrite (accumulate_hex _ _ D). fold (hex_value d).
  destruct (Z.ltb_spec ULONG_MAX (hex_value d)); lia.
Qed.

Lemma strtoul_0x (x : ascii) d :
  x = "x"%char \/ x = "X"%char ->
  forallb isxdigit d = true ->
  strtoul ("0"%char :: x :: d) 16 = Z.min (hex_value d) ULONG_MAX.
Proof.
  intros Hx D.
  assert (strtoul ("0"%char :: x :: d) 16
          = if ULONG_MAX <? accumulate 16 0 d then ULONG_MAX else accumulate 16 0 d)
    as -> by (by destruct Hx as [-> | ->]).
  rewrite (accumulate_hex _ _ D). fold (hex_value d).
  destruct (Z.ltb_spec ULONG_MAX (hex_value d)); lia.
Qed.

Lemma hex_fold_bound d : forall acc,
  forallb isxdigit d = true -> 0 <= acc ->
  0 <= fold_left (fun a c => a * 16 + hex_digit_value c) d acc
    < (acc + 1) * 16 ^ Z.of_nat (length d).
Proof.
  induction d as [|c d IH]; intros acc D Ha.
  - cbn [fold_left length]. change (16 ^ Z.of_nat 0) with 1. lia.
  - cbn [forallb] in D. apply andb_prop in D as [C D].
    destruct (xdigit_facts c C) as (_ & R & _).
    cbn [fold_left length].
    specialize (IH (acc * 16 + hex_digit_value c) D ltac:(lia)).
    rewrite Nat2Z.inj_succ, Z.pow_succ_r by lia.
    assert (0 < 16 ^ Z.of_nat (length d)) by (apply Z.pow_pos_nonneg; lia).
    nia.
Qed.

(** X3: for hexadecimal digits [digits], the tokens [#digits],
    [0xdigits] and [0Xdigits] all parse to the hexadecimal value of
    [digits], saturated at [ULONG_MAX]; with at most eight digits there is
    no saturation. *)
Theorem hex_token_value (digits : Str) :
  forallb isxdigit digits = true ->
  getNumber ("#"%char :: digits) = Z.min (hex_value digits) ULONG_MAX
  /\ getNumber (str "0x" ++ digits) = Z.min (hex_value digits) ULONG_MAX
  /\ getNumber (str "0X" ++ digits) = Z.min (hex_value digits) ULONG_MAX
  /\ ((length digits <= 8)%nat -> Z.min (hex_value digits) ULONG_MAX = hex_value digits).
Proof.
  intros D. split; [| split; [| split]].
  - unfold getNumber. cbn [startsWith str list_ascii_of_string].
    change (Ascii.eqb "#" "#") with true. cbn [drop]. by apply strtoul_hex.
  - apply (strtoul_0x "x"); auto.
  - apply (strtoul_0x "X"); auto.
  - intros Hl. pose proof (hex_fold_bound digits 0 D (Z.le_refl 0)) as B.
    fold (hex_value digits) in B.
    assert (16 ^ Z.of_nat (length digits) <= 16 ^ 8)
      by (apply Z.pow_le_mono_r; lia).
    unfold ULONG_MAX. change (16 ^ 8) with 4294967296 in *. lia.
Qed.

Lemma hex_token_value_witness :
  getNumber ("#"%char :: str "fF0080") = Z.min (hex_value (str "fF0080")) ULONG_MAX
  /\ getNumber (str "0x" ++ str "fF0080") = Z.min (hex_value (str "fF0080")) ULONG_MAX
  /\ getNumber (str "0X" ++ str "fF0080") = Z.min (hex_value (str "fF0080")) ULONG_MAX
  /\ ((length (str "fF0080") <= 8)%nat ->
      Z.min (hex_value (str "fF0080")) ULONG_MAX = hex_value (str "fF0080")).
Proof. exact (hex_token_value (str "fF0080") eq_refl). Defined.

(** ** White space in front of a hexadecimal colour *)

Lemma skip_space_app_blank w t :
  forallb isspace w = true -> skip_space (w ++ t) = skip_space t.
Proof.
  induction w as [|c w IH]; [done|]. cbn [forallb app skip_space].
  intros [-> H]%andb_prop. by apply IH.
Qed.

Lemma trim_tight_ends t : tight t -> tight (rev t) -> trim t = t.
Proof.
  intros T1 T2. unfold trim.
  by rewrite (tight_skip_space _ T1), (tight_skip_space _ T2), rev_involutive.
Qed.

Lemma trim_blank_front w t :
  forallb isspace w = true -> tight t -> tight (rev t) -> trim (w ++ t) = t.
Proof.
  intros W T1 T2. unfold trim.
  rewrite (skip_space_app_blank _ _ W), (tight_skip_space _ T1),
    (tight_skip_space _ T2). apply rev_involutive.
Qed.

Lemma tight_rev_xdigits p digits :
  tight (rev p) -> forallb isxdigit digits = true -> tight (rev (p ++ digits)).
Proof.
  intros Tp D. rewrite rev_app_distr.
  destruct digits as [|c digits _] using rev_ind; [done|].
  rewrite forallb_app in D. apply andb_prop in D as [_ D].
  cbn [forallb] in D. apply andb_prop in D as [C _].
  rewrite rev_app_distr. cbn [rev app tight].
  by destruct (xdigit_facts c C) as (_ & _ & Es & _).
Qed.

Lemma strip_0x_decimal s : strip_0x 10 s = s.
Proof. unfold strip_0x. by repeat case_match. Qed.

Lemma strtoul_decimal_unfold t :
  strtoul t 10
  = let '(neg, s) := strip_sign (skip_space t) in
    if ULONG_MAX <? accumulate 10 0 s then ULONG_MAX
    else if neg then (- accumulate 10 0 s) mod 2 ^ 32
    else accumulate 10 0 s.
Proof.
  unfold strtoul. destruct (strip_sign (skip_space t)) as [neg s].
  by rewrite strip_0x_decimal.
Qed.

Lemma blank_not_prefix c :
  isspace c = true -> Ascii.eqb c "#" = false /\ Ascii.eqb c "0" = false.
Proof. each_char c. Qed.

(** X4: a valid hexadecimal colour with white space in front of it is
    accepted by [isValidNumber], which trims its own copy, and is then read
    as 0 by [getNumber] on the untrimmed string: [handleSolidColor] paints
    the strip black, although the trimmed token has the hexadecimal value
    that [handleSetPixels], which trims first, would use. *)
Theorem blank_before_hex_reads_zero (c : ascii) (w p digits : Str) :
  isspace c = true ->
  forallb isspace w = true ->
  p = str "#" \/ p = str "0x" \/ p = str "0X" ->
  forallb isxdigit digits = true ->
  isValidNumber (c :: w ++ p ++ digits) = true
  /\ getNumber (c :: w ++ p ++ digits) = 0
  /\ getNumber (trim (c :: w ++ p ++ digits)) = Z.min (hex_value digits) ULONG_MAX
  /\ forall N opens junk d,
       length (strip d) = N ->
       strip_after
         (handleSolidColor N opens junk (solid_request (c :: w ++ p ++ digits)) d)
       = Some (replicate N black).
Proof.
  intros C W Hp D.
  assert (forallb isspace (c :: w) = true) as W' by (cbn [forallb]; by rewrite C, W).
  assert (trim (c :: w ++ p ++ digits) = p ++ digits) as Ht.
  { apply (trim_blank_front (c :: w)); [done | |].
    - by destruct Hp as [-> | [-> | ->]].
    - apply tight_rev_xdigits; [|done]. by destruct Hp as [-> | [-> | ->]]. }
  assert (isValidNumber (c :: w ++ p ++ digits) = true) as Hv.
  { unfold isValidNumber. rewrite Ht. by destruct Hp as [-> | [-> | ->]]. }
  assert (getNumber (c :: w ++ p ++ digits) = 0) as H0.
  { destruct (blank_not_prefix c C) as [Eh E0].
    unfold getNumber. cbn [startsWith str list_ascii_of_string].
    rewrite Eh, E0. cbn [orb].
    rewrite strtoul_decimal_unfold.
    change (c :: w ++ p ++ digits) with ((c :: w) ++ p ++ digits).
    rewrite (skip_space_app_blank (c :: w) _ W').
    destruct Hp as [-> | [-> | ->]]; reflexivity. }
  split; [done|]. split; [done|]. split.
  - rewrite Ht. destruct Hp as [-> | [-> | ->]].
    + unfold getNumber. cbn [startsWith str list_ascii_of_string app].
      change (Ascii.eqb "#" "#") with true. cbn [drop]. by apply strtoul_hex.
    + apply (strtoul_0x "x"); auto.
    + apply (strtoul_0x "X"); auto.
  - intros N opens junk d Hs. rewrite handleSolidColor_valid by done.
    cbn [strip_after strip]. by rewrite H0.
Qed.

Lemma blank_before_hex_reads_zero_witness :
  isValidNumber (" "%char :: [] ++ str "#" ++ str "ff0000") = true
  /\ getNumber (" "%char :: [] ++ str "#" ++ str "ff0000") = 0
  /\ getNumber (trim (" "%char :: [] ++ str "#" ++ str "ff0000"))
     = Z.min (hex_value (str "ff0000")) ULONG_MAX
  /\ forall N opens junk d,
       length (strip d) = N ->
       strip_after
         (handleSolidColor N opens junk
            (solid_request (" "%char :: [] ++ str "#" ++ str "ff0000")) d)
       = Some (replicate N black).
Proof.
  exact (blank_before_hex_reads_zero " " [] (str "#") (str "ff0000")
           eq_refl eq_refl (or_introl eq_refl) eq_refl).
Defined.

(** ** Boot *)

Lemma copy_to_strip_overrun n : forall i pixels leds,
  (i + n <= length pixels)%nat -> (i <= length leds)%nat ->
  (length leds < i + n)%nat ->
  copy_to_strip n i pixels leds = Trap (OutOfBounds (length leds)).
Proof.
  induction n as [|n IH]; intros i pixels leds Hp Hi Hl; [lia|].
  cbn [copy_to_strip].
  destruct (lookup_lt_is_Some_2 pixels i) as [p Hpi]; [lia|].
  rewrite (peek_Some _ _ _ Hpi). cbn [bind].
  destruct (decide (i = length leds)) as [->|Hne].
  - by rewrite poke_ge.
  - rewrite poke_lt by lia. cbn [bind].
    rewrite IH by (rewrite ?length_insert; lia).
    by rewrite length_insert.
Qed.

Lemma setup_pixels_blob N store ws :
  store !! (ns_pixels, key_color_vals) = Some (Blob ws) ->
  (length ws <= N)%nat ->
  setup_pixels N true store
  = Done (map color_of_word ws ++ replicate (N - length ws) black).
Proof.
  intros Hb Hl. unfold setup_pixels. rewrite Hb.
  destruct (Nat.ltb_spec 0 (length ws)).
  - rewrite copy_to_strip_spec by (rewrite ?length_replicate; lia).
    rewrite take_0, drop_0. cbn [app].
    by rewrite take_ge, drop_replicate by lia.
  - destruct ws; [|simpl in *; lia]. by rewrite Nat.sub_0_r.
Qed.

(** X5: with nothing saved under ["pixels"/"color_vals"], or with the
    namespace failing to open, boot leaves all [num_pixels] pixels black. *)
Theorem boot_without_saved_pixels (N : nat) (opens : bool) (store : Nvs) :
  opens = false \/ store !! (ns_pixels, key_color_vals) = None ->
  setup_pixels N opens store = Done (replicate N black).
Proof.
  intros [-> | H]; [done|]. unfold setup_pixels. rewrite H. by destruct opens.
Qed.

Lemma boot_without_saved_pixels_witness :
  setup_pixels 4 true (∅ : Nvs) = Done (replicate 4 black).
Proof.
  apply (boot_without_saved_pixels 4 true (∅ : Nvs)). right. reflexivity.
Defined.

(** X6: a saved blob of at most [num_pixels] words is drawn word by word,
    each as its low 24 bits, and the pixels it does not reach stay
    black. *)
Theorem boot_hydrates_saved_pixels (N : nat) (store : Nvs) (ws : list Z) :
  store !! (ns_pixels, key_color_vals) = Some (Blob ws) ->
  (length ws <= N)%nat ->
  setup_pixels N true store
  = Done (map color_of_word ws ++ replicate (N - length ws) black).
Proof. apply setup_pixels_blob. Qed.

Lemma boot_hydrates_saved_pixels_witness :
  setup_pixels 3 true (<[(ns_pixels, key_color_vals) := Blob [255; 4278255360]]> ∅)
  = Done (map color_of_word [255; 4278255360] ++ replicate (3 - 2) black).
Proof.
  apply (boot_hydrates_saved_pixels 3 _ [255; 4278255360]).
  - reflexivity.
  - simpl. lia.
Defined.

(** X7: a saved blob of more words than [num_pixels] (saved by a build
    with more pixels) is read with its own length: boot runs past the end
    of the [num_pixels]-element arrays, first at index [num_pixels]. *)
Theorem boot_overruns_on_long_blob (N : nat) (store : Nvs) (ws : list Z) :
  store !! (ns_pixels, key_color_vals) = Some (Blob ws) ->
  (N < length ws)%nat ->
  setup_pixels N true store = Trap (OutOfBounds N).
Proof.
  intros Hb Hl. unfold setup_pixels. rewrite Hb.
  destruct (Nat.ltb_spec 0 (length ws)); [|lia].
  rewrite copy_to_strip_overrun by (rewrite ?length_replicate; lia).
  by rewrite length_replicate.
Qed.

Lemma boot_overruns_on_long_blob_witness :
  setup_pixels 2 true (<[(ns_pixels, key_color_vals) := Blob [1; 2; 3]]> ∅)
  = Trap (OutOfBounds 2).
Proof.
  apply (boot_overruns_on_long_blob 2 _ [1; 2; 3]).
  - reflexivity.
  - simpl. lia.
Defined.

(** ** Saved state and the next boot *)

Lemma copy_to_strip_length n : forall i pixels leds leds',
  copy_to_strip n i pixels leds = Done leds' -> length leds' = length leds.
Proof.
  induction n as [|n IH]; intros i pixels leds leds'; cbn [copy_to_strip].
  - by intros [= ->].
  - destruct (peek pixels i) as [p|]; cbn [bind]; [|done].
    unfold poke. destruct (i <? length leds)%nat; cbn [bind]; [|done].
    intros H. apply IH in H. by rewrite H, length_insert.
Qed.

Lemma setup_pixels_length N opens store leds :
  setup_pixels N opens store = Done leds -> length leds = N.
Proof.
  unfold setup_pixels. destruct (0 <? _)%nat.
  - intros H. apply copy_to_strip_length in H. by rewrite H, length_replicate.
  - intros [= <-]. apply length_replicate.
Qed.

Lemma setup_pixels_ext N opens store1 store2 :
  store1 !! (ns_pixels, key_color_vals) = store2 !! (ns_pixels, key_color_vals) ->
  setup_pixels N opens store1 = setup_pixels N opens store2.
Proof. unfold setup_pixels. by intros ->. Qed.

Lemma load_correction_ext opens store1 store2 :
  (forall key, store1 !! (ns_color_corr, key) = store2 !! (ns_color_corr, key)) ->
  load_correction opens store1 = load_correction opens store2.
Proof. intros H. unfold load_correction, getUChar. by rewrite !H. Qed.

(** A device is what its saved state boots to exactly when the saved
    colours redraw its strip and the saved correction is the one applied. *)
Lemma reboot_same N d :
  reboot N d = Done d
  <-> setup_pixels N true (nvs d) = Done (strip d)
      /\ (let '(r, g, b) := load_correction true (nvs d) in CRGB_rgb r g b)
         = correction d.
Proof.
  unfold reboot, setup. cbn [andb].
  destruct (load_correction true (nvs d)) as [[r g] b].
  destruct d as [leds corr store]. cbn [strip correction nvs].
  destruct (setup_pixels N true store) as [leds'|f]; cbn [bind].
  - split; [by intros [= -> ->] | by intros [[= ->] ->]].
  - split; [done | by intros [? _]].
Qed.

Lemma to_uint8_idem z : to_uint8 (to_uint8 z) = to_uint8 z.
Proof. unfold to_uint8. by rewrite Z.mod_mod. Qed.

(** X8: a device in step with its saved state stays so through a
    successful solid-colour command when the namespace opens: the next
    boot redraws the same strip with the same correction. *)
Theorem solid_color_survives_reboot (N : nat) (junk : list Z) (color : Str)
    (d : Device) :
  isValidNumber color = true ->
  reboot N d = Done d ->
  exists d',
    handleSolidColor N true junk (solid_request color) d = Done (updated, d')
    /\ strip d' = replicate N (color_of_word (getNumber color))
    /\ reboot N d' = Done d'.
Proof.
  intros Hv [Hp Hc]%reboot_same.
  pose proof (setup_pixels_length _ _ _ _ Hp) as Hs.
  eexists. split; [by apply handleSolidColor_valid|]. split; [done|].
  apply reboot_same. cbn [strip correction nvs]. split.
  - unfold save_pixels.
    rewrite (setup_pixels_blob N _ (take N (replicate N (getNumber color))))
      by (by rewrite ?lookup_insert_eq, ?length_take, ?length_replicate; try lia).
    rewrite take_ge, length_replicate, Nat.sub_diag, app_nil_r
      by (rewrite length_replicate; lia).
    change (map ?f ?l) with (f <$> l). by rewrite fmap_replicate.
  - rewrite <- Hc. unfold save_pixels.
    by rewrite (load_correction_ext true _ (nvs d))
      by (intros key; by rewrite lookup_insert_ne).
Qed.

Lemma solid_color_survives_reboot_witness :
  exists d',
    handleSolidColor 4 true [] (solid_request (str "#102030")) (uniform_device 4 0)
      = Done (updated, d')
    /\ strip d' = replicate 4 (color_of_word (getNumber (str "#102030")))
    /\ reboot 4 d' = Done d'.
Proof.
  apply (solid_color_survives_reboot 4 [] (str "#102030") (uniform_device 4 0));
    reflexivity.
Defined.

(** X9: a device in step with its saved state stays so through a
    successful colour-correction command when the namespace opens: the
    three bytes read back at boot are the correction that was applied. *)
Theorem correction_survives_reboot (N : nat) (req : Request) (d : Device) :
  hasArg req "correctionRed" = true ->
  isValidNumber (arg req "correctionRed") = true ->
  isValidNumber (arg req "correctionGreen") = true ->
  isValidNumber (arg req "correctionBlue") = true ->
  reboot N d = Done d ->
  exists d',
    handleColorCorrection true req d
      = Done ("Color correction values applied."%string, d')
    /\ (let '(r, g, b) := load_correction true (nvs d') in mkCRGB r g b)
       = correction d'
    /\ reboot N d' = Done d'.
Proof.
  intros Hr Vr Vg Vb [Hp Hc]%reboot_same. unfold handleColorCorrection.
  rewrite Hr, !isValidNumber_trim, Vr, Vg, Vb. cbn [andb].
  eexists. split; [reflexivity|].
  cbn [strip correction nvs].
  assert (load_correction true
            (save_correction true
               (to_uint8 (constrain (getNumber (trim (arg req "correctionRed"))) 0 255))
               (to_uint8 (constrain (getNumber (trim (arg req "correctionGreen"))) 0 255))
               (to_uint8 (constrain (getNumber (trim (arg req "correctionBlue"))) 0 255))
               (nvs d))
          = (to_uint8 (constrain (getNumber (trim (arg req "correctionRed"))) 0 255),
             to_uint8 (constrain (getNumber (trim (arg req "correctionGreen"))) 0 255),
             to_uint8 (constrain (getNumber (trim (arg req "correctionBlue"))) 0 255)))
    as Hl.
  { unfold load_correction, save_correction, getUChar.
    simplify_map_eq. by rewrite !to_uint8_idem. }
  split; [| apply reboot_same; cbn [strip correction nvs]; split].
  - rewrite Hl. unfold CRGB_rgb. by rewrite !to_uint8_idem.
  - rewrite <- Hp. apply setup_pixels_ext. unfold save_correction.
    by rewrite !lookup_insert_ne.
  - by rewrite Hl.
Qed.

Lemma correction_survives_reboot_witness :
  exists d',
    handleColorCorrection true
      [("correctionRed"%string, str "300"); ("correctionGreen"%string, str "16");
       ("correctionBlue"%string, str "#7f")] (uniform_device 4 0)
      = Done ("Color correction values applied."%string, d')
    /\ (let '(r, g, b) := load_correction true (nvs d') in mkCRGB r g b)
       = correction d'
    /\ reboot 4 d' = Done d'.
Proof.
  apply (correction_survives_reboot 4
           [("correctionRed"%string, str "300"); ("correctionGreen"%string, str "16");
            ("correctionBlue"%string, str "#7f")] (uniform_device 4 0));
    reflexivity.
Defined.

(** ** Clearing preferences *)

Lemma prefs_clear_same ns store key : prefs_clear ns store !! (ns, key) = None.
Proof.
  unfold prefs_clear. apply map_lookup_filter_None. right.
  intros x _ H. by apply H.
Qed.

Lemma prefs_clear_other ns store ns' key :
  ns' <> ns -> prefs_clear ns store !! (ns', key) = store !! (ns', key).
Proof.
  intros Hne. unfold prefs_clear. apply option_eq. intros x.
  rewrite map_lookup_filter_Some. cbn [fst]. tauto.
Qed.

(** X10: with no correction bytes saved, or with the namespace failing to
    open, boot applies the default correction (255, 255, 255) and leaves
    the store as it found it. *)
Theorem boot_default_correction (N : nat) (opens_clear opens_corr opens_pixels : bool)
    (store : Nvs) (d : Device) :
  opens_corr = false \/ (forall key, store !! (ns_color_corr, key) = None) ->
  setup N false opens_clear opens_corr opens_pixels store = Done d ->
  correction d = mkCRGB 255 255 255 /\ nvs d = store.
Proof.
  intros H. unfold setup. cbn [andb].
  assert (load_correction opens_corr store = (255, 255, 255)) as ->.
  { destruct H as [-> | H]; [done|].
    unfold load_correction, getUChar. rewrite !H. by destruct opens_corr. }
  destruct (setup_pixels N opens_pixels store); cbn [bind]; [|done].
  by intros [= <-].
Qed.

Lemma boot_default_correction_witness :
  correction (mkDevice (replicate 2 black) (mkCRGB 255 255 255) ∅) = mkCRGB 255 255 255
  /\ nvs (mkDevice (replicate 2 black) (mkCRGB 255 255 255) ∅) = ∅.
Proof.
  apply (boot_default_correction 2 true true true ∅).
  - right. reflexivity.
  - reflexivity.
Defined.

(** X11: the preference-clearing sketch clears the namespace
    ["color_correction"], which the server never uses: whatever the store
    holds, the server reads the same correction and redraws the same
    pixels after the sketch has run as before. *)
Theorem clearing_sketch_keeps_server_state (N : nat) (opens o : bool) (store : Nvs) :
  load_correction o (clearing_sketch_setup opens store) = load_correction o store
  /\ setup_pixels N o (clearing_sketch_setup opens store) = setup_pixels N o store.
Proof.
  unfold clearing_sketch_setup. destruct opens; [|done]. split.
  - apply load_correction_ext. intros key. by apply prefs_clear_other.
  - apply setup_pixels_ext. by apply prefs_clear_other.
Qed.

(** X12: built with [CLEAR_PREFS] set, [setup] wipes the saved correction
    (the default (255, 255, 255) is applied at every boot) but not the
    saved colours: the strip is redrawn exactly as without the switch. *)
Theorem clear_prefs_spares_pixels (N : nat) (opens_corr opens_pixels : bool)
    (store : Nvs) :
  setup N true true opens_corr opens_pixels store
  = (let* leds := setup_pixels N opens_pixels store in
     Done {| strip := leds;
             correction := mkCRGB 255 255 255;
             nvs := prefs_clear ns_color_corr store |}).
Proof.
  unfold setup. cbn [andb].
  assert (load_correction opens_corr (prefs_clear ns_color_corr store)
          = (255, 255, 255)) as ->.
  { unfold load_correction, getUChar. rewrite !prefs_clear_same.
    by destruct opens_corr. }
  by rewrite (setup_pixels_ext N opens_pixels (prefs_clear ns_color_corr store) store)
    by (by apply prefs_clear_other).
Qed.

(** ** The gradient, any segment length *)

Lemma CRGB_rgb_byte r g b : byte_color (CRGB_rgb r g b).
Proof.
  unfold byte_color, CRGB_rgb, to_uint8. cbn [red green blue].
  pose proof (Z.mod_pos_bound r 256). pose proof (Z.mod_pos_bound g 256).
  pose proof (Z.mod_pos_bound b 256). lia.
Qed.

Lemma CRGB_code_byte x : byte_color (CRGB_code x).
Proof. apply CRGB_code_bytes. Qed.

(** The ramp writes [n] byte colours from index [i], the first of them
    the colour the accumulators start at, and nothing else. *)
Lemma ramp_spec n : forall i r88 g88 b88 rd gd bd leds,
  (i + n <= length leds)%nat ->
  exists ws,
    ramp n i r88 g88 b88 rd gd bd leds
    = Done (take i leds ++ ws ++ drop (i + n) leds)
    /\ length ws = n
    /\ Forall byte_color ws
    /\ ((0 < n)%nat ->
        ws !! 0%nat
        = Some (CRGB_rgb (Z.shiftr r88 8) (Z.shiftr g88 8) (Z.shiftr b88 8))).
Proof.
  induction n as [|n IH]; intros i r88 g88 b88 rd gd bd leds Hl.
  - exists []. cbn [ramp app length]. rewrite Nat.add_0_r, take_drop.
    repeat split; [constructor | lia].
  - cbn [ramp]. rewrite poke_lt by lia. cbn [bind].
    set (c0 := CRGB_rgb (Z.shiftr r88 8) (Z.shiftr g88 8) (Z.shiftr b88 8)).
    destruct (IH (S i) (to_uint16 (r88 + rd)) (to_uint16 (g88 + gd))
                (to_uint16 (b88 + bd)) rd gd bd (<[i := c0]> leds))
      as (ws & E & Hn & Hb & _); [rewrite length_insert; lia|].
    exists (c0 :: ws). rewrite E. split; [| split; [| split]].
    + rewrite (take_S_r _ _ c0) by (apply list_lookup_insert_eq; lia).
      rewrite take_insert_ge, drop_insert_lt by lia.
      rewrite <- app_assoc. cbn [app]. by rewrite Nat.add_succ_r.
    + cbn [length]. by rewrite Hn.
    + constructor; [apply CRGB_rgb_byte | done].
    + done.
Qed.

Lemma start_channels c :
  byte_color c ->
  CRGB_rgb (Z.shiftr (to_uint16 (Z.shiftl (red c) 8)) 8)
           (Z.shiftr (to_uint16 (Z.shiftl (green c) 8)) 8)
           (Z.shiftr (to_uint16 (Z.shiftl (blue c) 8)) 8)
  = c.
Proof.
  intros (Hr & Hg & Hb). unfold CRGB_rgb.
  rewrite !channel_roundtrip by done. by destruct c.
Qed.

(** The two-point fill writes positions [startpos .. endpos] with byte
    colours, the first of them the start colour. *)
Lemma fill_gradient_RGB_span_spec leds s c1 e c2 :
  (s <= e)%nat -> (e < length leds)%nat -> byte_color c1 ->
  exists ws,
    fill_gradient_RGB_span leds s c1 e c2
    = Done (take s leds ++ ws ++ drop (S e) leds)
    /\ length ws = S (e - s)
    /\ Forall byte_color ws
    /\ ws !! 0%nat = Some c1.
Proof.
  intros Hse He Hb. unfold fill_gradient_RGB_span.
  destruct (Nat.ltb_spec e s); [lia|].
  match goal with
  | |- context [ramp ?n ?i ?r ?g ?b ?rd ?gd ?bd leds] =>
      destruct (ramp_spec n i r g b rd gd bd leds) as (ws & E & Hn & Hw & H0);
        [lia|]
  end.
  exists ws. rewrite E. replace (s + S (e - s))%nat with (S e) by lia.
  split; [done|]. split; [done|]. split; [done|].
  rewrite H0 by lia. f_equal. by apply start_channels.
Qed.

(** The three-colour fill on [n] LEDs, [1 <= n]: it succeeds, writes
    byte colours to positions [0 .. n-1] only, puts the middle colour at
    position [n / 2] and, when [n >= 2], the start colour at position 0. *)
Lemma fill_gradient_RGB_spec leds n c1 c2 c3 :
  (1 <= n <= length leds)%nat -> Z.of_nat n <= 65535 ->
  byte_color c1 -> byte_color c2 ->
  exists segs,
    fill_gradient_RGB leds (Z.of_nat n) c1 c2 c3 = Done segs
    /\ length segs = length leds
    /\ Forall byte_color (take n segs)
    /\ drop n segs = drop n leds
    /\ segs !! Z.to_nat (Z.of_nat n / 2) = Some c2
    /\ ((2 <= n)%nat -> segs !! 0%nat = Some c1).
Proof.
  intros Hn H16 B1 B2. unfold fill_gradient_RGB.
  set (h := Z.to_nat (Z.of_nat n / 2)).
  assert (Z.to_nat (to_uint16 (Z.of_nat n - 1)) = n - 1)%nat as ->
    by (unfold to_uint16; rewrite Z.mod_small by lia; lia).
  assert (h <= n - 1)%nat as Hh
    by (subst h; pose proof (Z.div_lt_upper_bound (Z.of_nat n) 2 (Z.of_nat n));
        lia).
  assert ((2 <= n)%nat -> (1 <= h)%nat) as Hh2.
  { intros H2. subst h.
    pose proof (Z.div_le_lower_bound (Z.of_nat n) 2 1). lia. }
  destruct (fill_gradient_RGB_span_spec leds 0 c1 h c2)
    as (ws1 & E1 & L1 & F1 & Z1); [lia | lia | done |].
  rewrite E1. cbn [bind]. rewrite take_0, Nat.sub_0_r in *. cbn [app] in *.
  assert (length (ws1 ++ drop (S h) leds) = length leds) as Ll
    by (rewrite length_app, length_drop; lia).
  destruct (fill_gradient_RGB_span_spec (ws1 ++ drop (S h) leds) h c2 (n - 1) c3)
    as (ws2 & E2 & L2 & F2 & Z2); [lia | lia | done |].
  rewrite E2. replace (S (n - 1)) with n by lia.
  rewrite (take_app_le ws1) by lia.
  rewrite drop_app_ge, L1, drop_drop by lia.
  replace (S h + (n - S h))%nat with n by lia.
  eexists. split; [reflexivity|].
  assert (length (take h ws1) = h) as Lt by (rewrite length_take; lia).
  split; [| split; [| split; [| split]]].
  - rewrite !length_app, Lt, L2, length_drop. lia.
  - rewrite app_assoc, take_app_length'
      by (rewrite length_app, Lt, L2; lia).
    apply Forall_app. split; [by apply Forall_take | done].
  - rewrite app_assoc, drop_app_length'
      by (rewrite length_app, Lt, L2; lia).
    done.
  - rewrite lookup_app_r by lia. rewrite Lt, Nat.sub_diag.
    by rewrite lookup_app_l by lia.
  - intros H2. specialize (Hh2 H2).
    rewrite lookup_app_l by lia. by rewrite lookup_take_lt by lia.
Qed.

(** The inner loop in general: it writes until the segment or the array
    ends, whichever comes first. *)
Lemma fill_segment_upto N leds i c j : forall idx pixels,
  leds !! i = Some c ->
  (idx <= N)%nat -> length pixels = N ->
  fill_segment N j leds i idx pixels
  = Done (Nat.min N (idx + j),
          take idx pixels
          ++ replicate (Nat.min N (idx + j) - idx) (word_of c)
          ++ drop (Nat.min N (idx + j)) pixels).
Proof.
  induction j as [|j IH]; intros idx pixels Hc Hi Hp; cbn [fill_segment].
  - rewrite Nat.add_0_r, Nat.min_r, Nat.sub_diag by lia.
    cbn [replicate app]. by rewrite take_drop.
  - destruct (Nat.ltb_spec idx N).
    + rewrite (peek_Some _ _ _ Hc). cbn [bind].
      rewrite poke_lt by lia. cbn [bind].
      rewrite IH by (rewrite ?length_insert; done || lia).
      fold (word_of c).
      replace (S idx + j)%nat with (idx + S j)%nat by lia.
      rewrite (take_S_r _ _ (word_of c)) by (apply list_lookup_insert_eq; lia).
      rewrite take_insert_ge, drop_insert_lt by lia.
      rewrite <- app_assoc. cbn [app].
      replace (Nat.min N (idx + S j) - idx)%nat
        with (S (Nat.min N (idx + S j) - S idx)) by lia.
      done.
    + rewrite IH by done.
      by rewrite !Nat.min_l by lia.
Qed.

Lemma length_spread {A} L (l : list A) : length (spread L l) = (length l * L)%nat.
Proof.
  unfold spread. induction l as [|x l IH]; [done|].
  cbn [flat_map length]. rewrite length_app, length_replicate, IH. lia.
Qed.

Lemma spread_cons {A} L (x : A) l :
  spread L (x :: l) = replicate L x ++ spread L l.
Proof. reflexivity. Qed.

Lemma map_spread {A B} (f : A -> B) L l :
  map f (spread L l) = spread L (map f l).
Proof.
  unfold spread. induction l as [|x l IH]; [done|].
  cbn [flat_map map]. rewrite map_app, IH. f_equal.
  change (map f (replicate L x)) with (f <$> replicate L x).
  apply fmap_replicate.
Qed.

(** The outer loop: the segments' words, each [L] times, cut at the end
    of the array. *)
Lemma fill_segments_spec N L n : forall i leds idx pixels,
  (idx <= N)%nat -> length pixels = N -> (i + n <= length leds)%nat ->
  fill_segments N n i L leds idx pixels
  = Done (take N (take idx pixels
                  ++ spread L (map word_of (take n (drop i leds)))
                  ++ drop (idx + n * L) pixels)).
Proof.
  induction n as [|n IH]; intros i leds idx pixels Hi Hp Hl; cbn [fill_segments].
  - rewrite take_0. cbn [map spread flat_map app].
    rewrite Nat.mul_0_l, Nat.add_0_r, take_drop.
    by rewrite take_ge by lia.
  - destruct (lookup_lt_is_Some_2 leds i) as [c Hc]; [lia|].
    rewrite (peek_Some _ _ _ Hc). cbn [bind].
    rewrite (fill_segment_upto N leds i c L idx pixels Hc Hi Hp). cbn [bind fst snd].
    rewrite (drop_S _ _ _ Hc).
    replace (take (S n) (c :: drop (S i) leds))
      with (c :: take n (drop (S i) leds)) by reflexivity.
    cbn [map]. rewrite spread_cons.
    set (rest := spread L (map word_of (take n (drop (S i) leds)))).
    assert (length (take idx pixels) = idx) as Lt by (rewrite length_take; lia).
    rewrite IH; [| lia | | lia].
    2:{ rewrite !length_app, Lt, length_replicate, length_drop. lia. }
    f_equal.
    destruct (Nat.le_gt_cases (idx + L) N) as [Hle | Hgt].
    + rewrite Nat.min_r by lia.
      replace (idx + L - idx)%nat with L by lia.
      set (w := word_of c).
      assert (take (idx + L)
                (take idx pixels ++ replicate L w ++ drop (idx + L) pixels)
              = take idx pixels ++ replicate L w) as ->.
      { rewrite app_assoc. apply take_app_length'.
        rewrite length_app, Lt, length_replicate. lia. }
      assert (drop (idx + L + n * L)
                (take idx pixels ++ replicate L w ++ drop (idx + L) pixels)
              = drop (idx + S n * L) pixels) as ->.
      { rewrite app_assoc, drop_app_ge
          by (rewrite length_app, Lt, length_replicate; lia).
        rewrite length_app, Lt, length_replicate, drop_drop. f_equal. lia. }
      by rewrite <- !app_assoc.
    + rewrite Nat.min_l by lia.
      set (w := word_of c).
      rewrite (drop_ge pixels N) by lia. rewrite app_nil_r.
      assert (length (take idx pixels ++ replicate (N - idx) w) = N) as Lp
        by (rewrite length_app, Lt, length_replicate; lia).
      rewrite (take_ge (take idx pixels ++ replicate (N - idx) w) N) by lia.
      rewrite (take_app_le (take idx pixels ++ replicate (N - idx) w)) by lia.
      rewrite (take_ge (take idx pixels ++ replicate (N - idx) w) N) by lia.
      rewrite (take_app (take idx pixels)), Lt.
      rewrite (take_ge (take idx pixels)) by lia.
      f_equal.
      rewrite take_app_le by (rewrite length_app, length_replicate; lia).
      rewrite take_app_le by (rewrite length_replicate; lia).
      rewrite take_replicate. f_equal. lia.
Qed.

Lemma color_of_word_masked r g b :
  color_of_word (word_of (mkCRGB (Z.land r 255) (Z.land g 255) (Z.land b 255)))
  = mkCRGB (Z.land r 255) (Z.land g 255) (Z.land b 255).
Proof.
  unfold color_of_word, word_of, CRGB_code, as_uint32_t. cbn [red green blue].
  change 16777215 with (Z.ones 24). change 255 with (Z.ones 8).
  change 4278190080 with (Z.shiftl (Z.ones 8) 24).
  f_equal; apply Z.bits_inj'; intros n Hn;
    rewrite ?Z.land_spec, ?Z.shiftr_spec, ?Z.land_spec, ?Z.lor_spec,
      ?Z.shiftl_spec, ?Z.land_spec by lia;
    rewrite ?testbit_ones by lia;
    bit_cases; f_equal; lia.
Qed.

Lemma byte_land r : 0 <= r <= 255 -> Z.land r 255 = r.
Proof.
  intros Hr. change 255 with (Z.ones 8). rewrite Z.land_ones by lia.
  apply Z.mod_small. lia.
Qed.

(** For a colour made of bytes, the stored word gives the colour back. *)
Lemma color_of_word_of c : byte_color c -> color_of_word (word_of c) = c.
Proof.
  destruct c as [r g b]. intros (Hr & Hg & Hb). cbn [red green blue] in *.
  rewrite <- (byte_land r Hr), <- (byte_land g Hg), <- (byte_land b Hb).
  apply color_of_word_masked.
Qed.

Lemma num_segs_of_range N l :
  1 <= l <= Z.of_nat N -> Z.of_nat N <= 65535 ->
  num_segs_of N l = Done ((Z.of_nat N + l - 1) / l)
  /\ 1 <= (Z.of_nat N + l - 1) / l <= Z.of_nat N
  /\ Z.of_nat N <= (Z.of_nat N + l - 1) / l * l.
Proof.
  intros Hl HN. unfold num_segs_of, udiv, to_uint32.
  destruct (Z.eqb_spec l 0); [lia|].
  rewrite Z.mod_small by lia. split; [done|].
  pose proof (Z.div_mod (Z.of_nat N + l - 1) l ltac:(lia)) as E.
  pose proof (Z.mod_pos_bound (Z.of_nat N + l - 1) l ltac:(lia)) as B.
  set (q := (Z.of_nat N + l - 1) / l) in *.
  set (m := (Z.of_nat N + l - 1) mod l) in *.
  split; nia.
Qed.

(** The gradient handler on any segment length from 1 to the pixel
    count: the segments that [fill_gradient_RGB] computes on the first
    [num_segs] positions of the strip, each spread over [leds_per_seg]
    pixels, cut at [num_pixels]. *)
Lemma handleGradient_runs N opens junk leds_per_seg start mid end_ d :
  isValidNumber leds_per_seg = true ->
  isValidNumber start = true ->
  isValidNumber mid = true ->
  isValidNumber end_ = true ->
  1 <= getNumber leds_per_seg <= Z.of_nat N ->
  Z.of_nat N <= 65535 ->
  length (strip d) = N ->
  let L := Z.to_nat (getNumber leds_per_seg) in
  let S := Z.to_nat ((Z.of_nat N + getNumber leds_per_seg - 1) / getNumber leds_per_seg) in
  exists segs,
    fill_gradient_RGB (strip d) (Z.of_nat S)
      (CRGB_code (Z.land (getNumber start) 16777215))
      (CRGB_code (Z.land (getNumber mid) 16777215))
      (CRGB_code (Z.land (getNumber end_) 16777215)) = Done segs
    /\ length segs = N
    /\ Forall byte_color (take S segs)
    /\ (1 <= S <= N)%nat /\ (N <= S * L)%nat
    /\ handleGradient N opens junk (gradient_request leds_per_seg start mid end_) d
       = Done (updated,
               {| strip := take N (spread L (take S segs));
                  correction := correction d;
                  nvs := save_pixels N opens
                           (take N (spread L (map word_of (take S segs)))) (nvs d) |}).
Proof.
  intros V1 V2 V3 V4 Hl HN Hs L S.
  destruct (num_segs_of_range N (getNumber leds_per_seg) Hl HN) as (En & Hq & Hc).
  set (q := (Z.of_nat N + getNumber leds_per_seg - 1) / getNumber leds_per_seg) in *.
  assert (Z.of_nat S = q) as HS by (subst S; lia).
  assert (1 <= S <= N)%nat as HSr by lia.
  assert (N <= S * L)%nat as Hcov.
  { apply Nat2Z.inj_le. rewrite Nat2Z.inj_mul, HS. subst L.
    rewrite Z2Nat.id by lia. exact Hc. }
  destruct (fill_gradient_RGB_spec (strip d) S
              (CRGB_code (Z.land (getNumber start) 16777215))
              (CRGB_code (Z.land (getNumber mid) 16777215))
              (CRGB_code (Z.land (getNumber end_) 16777215)))
    as (segs & Ef & Lf & Bf & _); [lia | lia | apply CRGB_code_byte .. |].
  exists segs. split; [done|]. split; [lia|]. split; [done|].
  split; [done|]. split; [done|].
  unfold handleGradient, gradient_request. cbn [hasArg existsb arg fst].
  rewrite !String.eqb_refl. cbn [orb andb String.eqb Ascii.eqb Bool.eqb].
  rewrite V1, V2, V3, V4. cbn [andb].
  destruct (Z.ltb_spec (Z.of_nat N) (getNumber leds_per_seg)); [lia|].
  rewrite En. cbn [bind].
  assert (to_uint16 q = Z.of_nat S) as -> by (unfold to_uint16; rewrite Z.mod_small; lia).
  rewrite Ef. cbn [bind]. fold L. replace (Z.to_nat q) with S by lia.
  rewrite fill_segments_spec by (rewrite ?length_resize; lia).
  rewrite take_0, drop_0. cbn [app].
  rewrite (drop_ge (resize N 0 junk)) by (rewrite length_resize; lia).
  rewrite app_nil_r.
  assert (length (take N (spread L (map word_of (take S segs)))) = N) as Lp.
  { rewrite length_take, length_spread, length_map, length_take.
    rewrite (Nat.min_l S) by lia. lia. }
  cbn [bind]. rewrite copy_to_strip_spec by lia. cbn [bind].
  rewrite take_0, drop_0. cbn [app].
  rewrite (take_ge _ N) by lia.
  rewrite (drop_ge segs) by lia. rewrite app_nil_r.
  do 3 f_equal.
  change (map ?f ?l) with (f <$> l) at 1. rewrite fmap_take.
  change (?f <$> ?l) with (map f l). rewrite map_spread, map_map.
  do 2 f_equal.
  clear -Bf. induction (take S segs) as [|c l IH]; [done|].
  apply Forall_cons in Bf as [Hc Hl]. cbn [map].
  fold (color_of_word (word_of c)). by rewrite (color_of_word_of c Hc), IH.
Qed.


Lemma lookup_spread {A} L (l : list A) : forall p,
  (0 < L)%nat -> spread L l !! p = l !! (p / L)%nat.
Proof.
  induction l as [|x l IH]; intros p HL; [done|].
  rewrite spread_cons.
  destruct (Nat.lt_ge_cases p L) as [Hlt | Hge].
  - rewrite lookup_app_l by (by rewrite length_replicate).
    rewrite Nat.div_small by done. by apply lookup_replicate_2.
  - rewrite lookup_app_r by (by rewrite length_replicate).
    rewrite length_replicate, IH by done.
    replace p with ((p - L) + 1 * L)%nat at 2 by lia.
    rewrite Nat.div_add by lia. by rewrite Nat.add_1_r.
Qed.

Lemma redraw_spread N L (l : list CRGB) :
  Forall byte_color l ->
  map color_of_word (take N (spread L (map word_of l))) = take N (spread L l).
Proof.
  intros Hb. change (map ?f ?l) with (f <$> l) at 1. rewrite fmap_take.
  change (?f <$> ?l) with (map f l). rewrite map_spread, map_map.
  do 2 f_equal. induction l as [|c l IH]; [done|].
  apply Forall_cons in Hb as [Hc Hl]. cbn [map].
  by rewrite (color_of_word_of c Hc), IH.
Qed.

(** X13: for a valid request with a segment length from 1 to the pixel
    count, the gradient succeeds and pixel [p] shows the colour that
    [fill_gradient_RGB] computed for segment [p / leds_per_seg]; the
    result does not depend on what the uninitialised local array held. *)
Theorem gradient_pixel_segment (N : nat) (opens : bool) (junk : list Z)
    (leds_per_seg start mid end_ : Str) (d : Device) :
  isValidNumber leds_per_seg = true ->
  isValidNumber start = true ->
  isValidNumber mid = true ->
  isValidNumber end_ = true ->
  1 <= getNumber leds_per_seg <= Z.of_nat N ->
  Z.of_nat N <= 65535 ->
  length (strip d) = N ->
  exists segs d',
    fill_gradient_RGB (strip d)
      ((Z.of_nat N + getNumber leds_per_seg - 1) / getNumber leds_per_seg)
      (CRGB_code (Z.land (getNumber start) 16777215))
      (CRGB_code (Z.land (getNumber mid) 16777215))
      (CRGB_code (Z.land (getNumber end_) 16777215)) = Done segs
    /\ handleGradient N opens junk (gradient_request leds_per_seg start mid end_) d
       = Done (updated, d')
    /\ length (strip d') = N
    /\ (forall p, (p < N)%nat ->
          strip d' !! p = segs !! (p / Z.to_nat (getNumber leds_per_seg))%nat)
    /\ handleGradient N opens [] (gradient_request leds_per_seg start mid end_) d
       = Done (updated, d').
Proof.
  intros V1 V2 V3 V4 Hl HN Hs.
  destruct (handleGradient_runs N opens junk _ _ _ _ d V1 V2 V3 V4 Hl HN Hs)
    as (segs & Ef & Lf & Bf & HS & Hcov & E).
  destruct (handleGradient_runs N opens [] _ _ _ _ d V1 V2 V3 V4 Hl HN Hs)
    as (segs' & Ef' & _ & _ & _ & _ & E').
  rewrite Ef in Ef'. injection Ef' as <-.
  destruct (num_segs_of_range N (getNumber leds_per_seg) Hl HN) as (_ & Hq & _).
  rewrite Z2Nat.id in Ef by lia.
  set (L := Z.to_nat (getNumber leds_per_seg)) in *.
  set (S := Z.to_nat ((Z.of_nat N + getNumber leds_per_seg - 1) / getNumber leds_per_seg)) in *.
  eexists segs, _. split; [done|]. split; [exact E|].
  cbn [strip]. split; [| split; [| exact E']].
  - rewrite length_take, length_spread, length_take.
    rewrite (Nat.min_l S) by lia. lia.
  - intros p Hp. rewrite lookup_take_lt by done.
    rewrite lookup_spread by (subst L; lia).
    apply lookup_take_lt. apply Nat.Div0.div_lt_upper_bound. lia.
Qed.

Lemma gradient_pixel_segment_witness :
  exists segs d',
    fill_gradient_RGB (strip (uniform_device 5 0))
      ((Z.of_nat 5 + getNumber (str "2") - 1) / getNumber (str "2"))
      (CRGB_code (Z.land (getNumber (str "#ff0000")) 16777215))
      (CRGB_code (Z.land (getNumber (str "#00ff00")) 16777215))
      (CRGB_code (Z.land (getNumber (str "#0000ff")) 16777215)) = Done segs
    /\ handleGradient 5 true [7]
         (gradient_request (str "2") (str "#ff0000") (str "#00ff00") (str "#0000ff"))
         (uniform_device 5 0)
       = Done (updated, d')
    /\ length (strip d') = 5%nat
    /\ (forall p, (p < 5)%nat ->
          strip d' !! p = segs !! (p / Z.to_nat (getNumber (str "2")))%nat)
    /\ handleGradient 5 true []
         (gradient_request (str "2") (str "#ff0000") (str "#00ff00") (str "#0000ff"))
         (uniform_device 5 0)
       = Done (updated, d').
Proof.
  apply (gradient_pixel_segment 5 true [7]
           (str "2") (str "#ff0000") (str "#00ff00") (str "#0000ff")
           (uniform_device 5 0)); try reflexivity.
  - vm_compute. split; discriminate.
  - vm_compute. discriminate.
Defined.

(** X14: with a segment length below the pixel count there are at least
    two segments, and then the first [leds_per_seg] pixels show the start
    colour and the segment in the middle (index [num_segs / 2]) shows the
    middle colour, each as its low 24 bits. *)
Theorem gradient_start_and_middle (N : nat) (opens : bool) (junk : list Z)
    (leds_per_seg start mid end_ : Str) (d : Device) :
  isValidNumber leds_per_seg = true ->
  isValidNumber start = true ->
  isValidNumber mid = true ->
  isValidNumber end_ = true ->
  1 <= getNumber leds_per_seg < Z.of_nat N ->
  Z.of_nat N <= 65535 ->
  length (strip d) = N ->
  let L := Z.to_nat (getNumber leds_per_seg) in
  let half :=
    Z.to_nat ((Z.of_nat N + getNumber leds_per_seg - 1) / getNumber leds_per_seg / 2) in
  exists d',
    handleGradient N opens junk (gradient_request leds_per_seg start mid end_) d
      = Done (updated, d')
    /\ (forall p, (p < L)%nat ->
          strip d' !! p = Some (CRGB_code (Z.land (getNumber start) 16777215)))
    /\ (forall p, (half * L <= p < half * L + L)%nat -> (p < N)%nat ->
          strip d' !! p = Some (CRGB_code (Z.land (getNumber mid) 16777215))).
Proof.
  intros V1 V2 V3 V4 Hl HN Hs L half.
  assert (1 <= getNumber leds_per_seg <= Z.of_nat N) as Hl' by lia.
  destruct (handleGradient_runs N opens junk _ _ _ _ d V1 V2 V3 V4 Hl' HN Hs)
    as (segs & Ef & Lf & Bf & HS & Hcov & E).
  destruct (num_segs_of_range N (getNumber leds_per_seg) Hl' HN) as (_ & Hq & _).
  set (q := (Z.of_nat N + getNumber leds_per_seg - 1) / getNumber leds_per_seg) in *.
  assert (2 <= q) as Hq2.
  { subst q. apply Z.div_le_lower_bound; lia. }
  set (S := Z.to_nat q) in *. fold L in E, Hcov.
  destruct (fill_gradient_RGB_spec (strip d) S
              (CRGB_code (Z.land (getNumber start) 16777215))
              (CRGB_code (Z.land (getNumber mid) 16777215))
              (CRGB_code (Z.land (getNumber end_) 16777215)))
    as (segs' & Ef' & _ & _ & _ & Hm & H0); [lia | lia | apply CRGB_code_byte .. |].
  rewrite Ef in Ef'. injection Ef' as <-.
  replace (Z.of_nat S) with q in Hm by lia. fold half in Hm.
  assert (half < S)%nat as Hh.
  { subst half S. pose proof (Z.div_lt_upper_bound q 2 q). lia. }
  eexists. split; [exact E|]. cbn [strip].
  assert (0 < L)%nat as HL by (subst L; lia).
  assert (forall p, (p < N)%nat ->
            take N (spread L (take S segs)) !! p = segs !! (p / L)%nat) as Hp.
  { intros p Hp. rewrite lookup_take_lt by done.
    rewrite lookup_spread by done.
    apply lookup_take_lt. apply Nat.Div0.div_lt_upper_bound. lia. }
  split.
  - intros p HpL. rewrite Hp by (subst L; lia).
    rewrite Nat.div_small by done. apply H0. lia.
  - intros p Hr HpN. rewrite Hp by done.
    replace (p / L)%nat with half; [done|].
    apply (Nat.div_unique p L half (p - half * L)); lia.
Qed.

Lemma gradient_start_and_middle_witness :
  exists d',
    handleGradient 5 true []
      (gradient_request (str "2") (str "#ff0000") (str "#00ff00") (str "#0000ff"))
      (uniform_device 5 0)
      = Done (updated, d')
    /\ (forall p, (p < Z.to_nat (getNumber (str "2")))%nat ->
          strip d' !! p
          = Some (CRGB_code (Z.land (getNumber (str "#ff0000")) 16777215)))
    /\ (forall p,
          (Z.to_nat ((Z.of_nat 5 + getNumber (str "2") - 1) / getNumber (str "2") / 2)
             * Z.to_nat (getNumber (str "2")) <= p
           < Z.to_nat ((Z.of_nat 5 + getNumber (str "2") - 1) / getNumber (str "2") / 2)
             * Z.to_nat (getNumber (str "2")) + Z.to_nat (getNumber (str "2")))%nat ->
          (p < 5)%nat ->
          strip d' !! p
          = Some (CRGB_code (Z.land (getNumber (str "#00ff00")) 16777215))).
Proof.
  apply (gradient_start_and_middle 5 true []
           (str "2") (str "#ff0000") (str "#00ff00") (str "#0000ff")
           (uniform_device 5 0)); try reflexivity.
  - vm_compute. split; [discriminate | reflexivity].
  - vm_compute. discriminate.
Defined.

(** X15: a device in step with its saved state stays so through a
    successful gradient command when the namespace opens. *)
Theorem gradient_survives_reboot (N : nat) (junk : list Z)
    (leds_per_seg start mid end_ : Str) (d : Device) :
  isValidNumber leds_per_seg = true ->
  isValidNumber start = true ->
  isValidNumber mid = true ->
  isValidNumber end_ = true ->
  1 <= getNumber leds_per_seg <= Z.of_nat N ->
  Z.of_nat N <= 65535 ->
  reboot N d = Done d ->
  exists d',
    handleGradient N true junk (gradient_request leds_per_seg start mid end_) d
      = Done (updated, d')
    /\ reboot N d' = Done d'.
Proof.
  intros V1 V2 V3 V4 Hl HN [Hp Hc]%reboot_same.
  pose proof (setup_pixels_length _ _ _ _ Hp) as Hs.
  destruct (handleGradient_runs N true junk _ _ _ _ d V1 V2 V3 V4 Hl HN Hs)
    as (segs & Ef & Lf & Bf & HS & Hcov & E).
  eexists. split; [exact E|].
  apply reboot_same. cbn [strip correction nvs]. unfold save_pixels. split.
  - set (ws := take N (spread _ (map word_of _))).
    assert (length ws = N) as Lw.
    { subst ws. rewrite length_take, length_spread, length_map, length_take.
      rewrite (Nat.min_l _ (length segs)) by lia. lia. }
    rewrite (setup_pixels_blob N _ (take N ws))
      by (by rewrite ?lookup_insert_eq, ?length_take; try lia).
    rewrite (take_ge ws) by lia.
    rewrite Lw, Nat.sub_diag, app_nil_r. subst ws.
    by rewrite redraw_spread.
  - rewrite <- Hc.
    by rewrite (load_correction_ext true _ (nvs d))
      by (intros key; by rewrite lookup_insert_ne).
Qed.

Lemma gradient_survives_reboot_witness :
  exists d',
    handleGradient 5 true []
      (gradient_request (str "2") (str "#ff0000") (str "#00ff00") (str "#0000ff"))
      (uniform_device 5 0)
      = Done (updated, d')
    /\ reboot 5 d' = Done d'.
Proof.
  apply (gradient_survives_reboot 5 []
           (str "2") (str "#ff0000") (str "#00ff00") (str "#0000ff")
           (uniform_device 5 0)); try reflexivity.
  - vm_compute. split; discriminate.
  - vm_compute. discriminate.
Defined.

(** X16: for a request whose four fields are valid, the gradient handler
    has exactly three outcomes, decided by the segment length alone:
    0 divides by zero, 1 to [num_pixels] succeeds, anything larger is
    refused with the device untouched. *)
Theorem gradient_outcomes (N : nat) (opens : bool) (junk : list Z)
    (leds_per_seg start mid end_ : Str) (d : Device) :
  isValidNumber leds_per_seg = true ->
  isValidNumber start = true ->
  isValidNumber mid = true ->
  isValidNumber end_ = true ->
  Z.of_nat N <= 65535 ->
  length (strip d) = N ->
  let outcome :=
    handleGradient N opens junk (gradient_request leds_per_seg start mid end_) d in
  (getNumber leds_per_seg = 0 /\ outcome = Trap DivideByZero)
  \/ (1 <= getNumber leds_per_seg <= Z.of_nat N
      /\ exists d', outcome = Done (updated, d'))
  \/ (Z.of_nat N < getNumber leds_per_seg
      /\ outcome
         = Done ("Error: LEDs per segment larger than total LEDs"%string, d)).
Proof.
  intros V1 V2 V3 V4 HN Hs outcome.
  pose proof (getNumber_range leds_per_seg) as [H0 _].
  destruct (Z.eq_dec (getNumber leds_per_seg) 0) as [Hz | Hnz].
  - left. split; [done|]. by apply handleGradient_zero.
  - destruct (Z.le_gt_cases (getNumber leds_per_seg) (Z.of_nat N)) as [Hle | Hgt].
    + right. left. split; [lia|].
      destruct (handleGradient_runs N opens junk _ _ _ _ d V1 V2 V3 V4
                  ltac:(lia) HN Hs) as (segs & _ & _ & _ & _ & _ & E).
      eexists. exact E.
    + right. right. split; [lia|].
      subst outcome. unfold handleGradient, gradient_request.
      cbn [hasArg existsb arg fst].
      rewrite !String.eqb_refl. cbn [orb andb String.eqb Ascii.eqb Bool.eqb].
      rewrite V1, V2, V3, V4. cbn [andb].
      by destruct (Z.ltb_spec (Z.of_nat N) (getNumber leds_per_seg)); [|lia].
Qed.

Lemma gradient_outcomes_witness :
  (getNumber (str "9") = 0
   /\ handleGradient 5 true []
        (gradient_request (str "9") (str "1") (str "2") (str "3")) (uniform_device 5 0)
      = Trap DivideByZero)
  \/ (1 <= getNumber (str "9") <= Z.of_nat 5
      /\ exists d',
           handleGradient 5 true []
             (gradient_request (str "9") (str "1") (str "2") (str "3"))
             (uniform_device 5 0)
           = Done (updated, d'))
  \/ (Z.of_nat 5 < getNumber (str "9")
      /\ handleGradient 5 true []
           (gradient_request (str "9") (str "1") (str "2") (str "3"))
           (uniform_device 5 0)
         = Done ("Error: LEDs per segment larger than total LEDs"%string,
                 uniform_device 5 0)).
Proof.
  apply (gradient_outcomes 5 true [] (str "9") (str "1") (str "2") (str "3")
           (uniform_device 5 0)); try reflexivity.
  vm_compute. discriminate.
Defined.

(** ** Pixel lists with a bad entry, and pixel lists across a reboot *)

Lemma scan_tokens_front N front : forall vals fuel tail,
  Forall entry_ok front ->
  (length vals + length front < N)%nat ->
  (length (join_commas (front ++ [tail])) <= fuel)%nat ->
  scan_tokens N fuel (join_commas (front ++ [tail])) (length vals)
    (vals ++ replicate (N - length vals) 0)
  = scan_tokens N (length tail) tail (length vals + length front)
      (vals ++ map (fun t => getNumber (trim t)) front
            ++ replicate (N - length vals - length front) 0).
Proof.
  induction front as [|t front IH]; intros vals fuel tail Hf Hn Hfuel.
  - cbn [app join_commas length map] in *.
    rewrite !Nat.add_0_r, Nat.sub_0_r. by apply scan_tokens_fuel.
  - apply Forall_cons in Hf as [[Hc Hv] Hf].
    change ((t :: front) ++ [tail]) with (t :: (front ++ [tail])) in *.
    rewrite join_commas_cons in * by (by destruct front).
    destruct fuel as [|fuel]; [rewrite length_app in Hfuel; simpl in Hfuel; lia|].
    cbn [length] in Hn. cbn [scan_tokens].
    rewrite (indexOf_comma_app _ _ Hc), take_app_length, drop_past_comma.
    rewrite isValidNumber_trim, Hv. cbn [negb].
    destruct (N - length vals)%nat as [|m] eqn:Em; [lia|].
    cbn [replicate]. rewrite poke_middle by done. cbn [bind].
    destruct (Nat.leb_spec N (S (length vals))); [lia|].
    specialize (IH (vals ++ [getNumber (trim t)]) fuel tail Hf).
    rewrite length_app in IH. cbn [length] in IH.
    replace (N - (length vals + 1))%nat with m in IH by lia.
    rewrite <- !app_assoc in IH. cbn [app] in IH.
    rewrite Nat.add_1_r in IH. rewrite IH.
    + cbn [length map app].
      replace (S m - S (length front))%nat with (m - length front)%nat by lia.
      f_equal. lia.
    + lia.
    + rewrite length_app in Hfuel. cbn [length] in Hfuel. lia.
Qed.

Lemma join_commas_app a b :
  b <> [] -> join_commas (a ++ b) = join_commas (a ++ [join_commas b]).
Proof.
  intros Hb. induction a as [|t a IH]; [done|].
  change ((t :: a) ++ ?l) with (t :: (a ++ l)).
  rewrite !join_commas_cons by (by destruct a, b). by rewrite IH.
Qed.

Lemma In_trim c s : In c s -> isspace c = false -> In c (trim s).
Proof.
  intros Hin Hc.
  destruct (skip_space_split s) as [w1 [E1 W1]].
  destruct (trim_shape s) as [w2 [E2 W2]].
  rewrite E1, E2 in Hin. rewrite !in_app_iff in Hin.
  rewrite forallb_forall in W1, W2.
  destruct Hin as [H | [H | H]]; [| done |].
  - apply W1 in H. congruence.
  - apply W2 in H. congruence.
Qed.

Lemma forallb_In_false {A} (f : A -> bool) l x :
  In x l -> f x = false -> forallb f l = false.
Proof.
  intros Hin Hx. apply not_true_is_false. intros H.
  rewrite forallb_forall in H. specialize (H x Hin). congruence.
Qed.

(** A string with a comma in it is never a valid number. *)
Lemma comma_invalid s : In ","%char s -> isValidNumber s = false.
Proof.
  intros Hin. apply In_trim in Hin; [|done]. unfold isValidNumber.
  destruct (trim s) as [|c0 t]; [done|].
  cbn [startsWith str list_ascii_of_string].
  destruct t as [|c1 t].
  - destruct Hin as [-> | []]. reflexivity.
  - repeat match goal with
           | |- context [Ascii.eqb ?a ?b] => destruct (Ascii.eqb_spec a b); subst
           end;
      cbn [orb andb drop];
      apply (forallb_In_false _ _ ","%char); try done;
      destruct Hin as [H | [H | H]]; try done;
      cbn [In]; auto.
Qed.

Lemma join_commas_comma a b l : In ","%char (join_commas (a :: b :: l)).
Proof.
  rewrite join_commas_cons by done. apply in_app_iff. right. by left.
Qed.

Lemma scan_tokens_plain N fuel values idx pixels :
  indexOf "," values = None ->
  scan_tokens N fuel values idx pixels = Done (mkScan values idx true pixels).
Proof. intros H. destruct fuel; cbn [scan_tokens]; by rewrite ?H. Qed.

(** X17: a pixel list with an entry that is not a valid number, wherever
    it stands in the list, is refused and leaves strip, correction and
    saved state as they were, whatever the entries after it. *)
Theorem set_pixels_bad_entry_refused (N : nat) (opens : bool) (req : Request)
    (front back : list Str) (bad : Str) (d : Device) :
  hasArg req "pixelValues" = true ->
  arg req "pixelValues" = join_commas (front ++ bad :: back) ->
  (0 < N)%nat ->
  Forall entry_ok front ->
  indexOf "," bad = None ->
  isValidNumber bad = false ->
  handleSetPixels N opens req d
  = Done ("Error: One or more values are invalid. Please enter only decimal or hex values."%string, d).
Proof.
  intros Ha Hv HN Hf Hc Hb.
  destruct (Nat.lt_ge_cases (length front) N) as [Hlt | Hge].
  - unfold handleSetPixels. rewrite Ha, Hv.
    rewrite join_commas_app by done.
    pose proof (scan_tokens_front N front []
                  (length (join_commas (front ++ [join_commas (bad :: back)])))
                  (join_commas (bad :: back)) Hf) as K.
    cbn [length app] in K. rewrite Nat.sub_0_r in K. rewrite K by lia. clear K.
    destruct back as [|b back].
    + cbn [join_commas]. rewrite scan_tokens_plain by done.
      cbn [bind sc_valid sc_values]. by rewrite Hb.
    + rewrite join_commas_cons by done.
      destruct (length (bad ++ ","%char :: join_commas (b :: back))) as [|fuel] eqn:El;
        [rewrite length_app in El; cbn [length] in El; lia|].
      cbn [scan_tokens].
      rewrite (indexOf_comma_app _ _ Hc), take_app_length.
      by rewrite isValidNumber_trim, Hb.
  - rewrite <- (take_drop N front), <- app_assoc in Hv.
    rewrite join_commas_app in Hv by (by destruct (drop N front)).
    apply (handleSetPixels_many_over N opens req (take N front)
             (join_commas (drop N front ++ bad :: back))); try done.
    + rewrite length_take. lia.
    + destruct front; [simpl in Hge; lia|]. by destruct N; [lia|].
    + by apply Forall_take.
    + destruct (drop N front) as [|a l]; [destruct back as [|b back]|].
      * done.
      * apply comma_invalid, join_commas_comma.
      * destruct l; apply comma_invalid, join_commas_comma.
Qed.

Lemma set_pixels_bad_entry_refused_witness :
  handleSetPixels 3 true (pixels_request (str "1,two,3,4,5")) (uniform_device 3 255)
  = Done ("Error: One or more values are invalid. Please enter only decimal or hex values."%string,
          uniform_device 3 255).
Proof.
  apply (set_pixels_bad_entry_refused 3 true _ [str "1"] [str "3"; str "4"; str "5"]
           (str "two")); try reflexivity.
  - lia.
  - repeat constructor.
Defined.

(** X18: after a successful pixel list of [k] entries, [1 <= k <= N], the
    saved state boots to the [k] parsed colours followed by black, so the
    next boot shows the strip as the command left it exactly when the
    pixels from [k] on were black before the command. *)
Theorem set_pixels_reboots_to_black_tail (N : nat) (req : Request)
    (tokens : list Str) (d : Device) :
  hasArg req "pixelValues" = true ->
  arg req "pixelValues" = join_commas tokens ->
  tokens <> [] -> (length tokens <= N)%nat ->
  Forall entry_ok tokens ->
  length (strip d) = N ->
  exists d',
    handleSetPixels N true req d = Done (updated, d')
    /\ setup_pixels N true (nvs d')
       = Done (map pixel_of tokens ++ replicate (N - length tokens) black)
    /\ (setup_pixels N true (nvs d') = Done (strip d')
        <-> drop (length tokens) (strip d) = replicate (N - length tokens) black).
Proof.
  intros Ha Hv Hne Hk Hok Hs.
  destruct (exists_last Hne) as [front [last_ ->]].
  rewrite length_app in Hk. cbn [length] in Hk.
  pose proof Hok as Hok'.
  apply Forall_app in Hok' as [Hf Hl]. apply Forall_cons in Hl as [Hl _].
  eexists. split; [apply handleSetPixels_fits; try done; lia|].
  cbn [strip nvs]. unfold save_pixels.
  set (ws := map (fun t => getNumber (trim t)) (front ++ [last_])
             ++ replicate (N - S (length front)) 0).
  assert (length ws = N) as Lw.
  { subst ws. rewrite length_app, length_map, length_app, length_replicate.
    cbn [length]. lia. }
  assert (setup_pixels N true (<[(ns_pixels, key_color_vals) := Blob (take N ws)]> (nvs d))
          = Done (map pixel_of (front ++ [last_])
                  ++ replicate (N - length (front ++ [last_])) black)) as E.
  { rewrite (setup_pixels_blob N _ (take N ws))
      by (by rewrite ?lookup_insert_eq, ?length_take; try lia).
    rewrite (take_ge ws) by lia. rewrite Lw, Nat.sub_diag, app_nil_r.
    subst ws. rewrite map_app, map_map. f_equal.
    rewrite length_app. cbn [length]. rewrite Nat.add_1_r.
    change (map ?f ?l) with (f <$> l). by rewrite fmap_replicate. }
  split; [exact E|]. rewrite E. split.
  - intros H. injection H as H. apply app_inv_head in H.
    rewrite length_app. cbn [length]. rewrite Nat.add_1_r.
    rewrite length_app in H. cbn [length] in H. rewrite Nat.add_1_r in H.
    by rewrite H.
  - rewrite length_app. cbn [length]. rewrite Nat.add_1_r. by intros ->.
Qed.

Lemma set_pixels_reboots_to_black_tail_witness :
  exists d',
    handleSetPixels 4 true (pixels_request (str "#ff,0x10")) (uniform_device 4 0)
      = Done (updated, d')
    /\ setup_pixels 4 true (nvs d')
       = Done (map pixel_of [str "#ff"; str "0x10"]
               ++ replicate (4 - length [str "#ff"; str "0x10"]) black)
    /\ (setup_pixels 4 true (nvs d') = Done (strip d')
        <-> drop (length [str "#ff"; str "0x10"]) (strip (uniform_device 4 0))
            = replicate (4 - length [str "#ff"; str "0x10"]) black).
Proof.
  apply (set_pixels_reboots_to_black_tail 4 (pixels_request (str "#ff,0x10"))
           [str "#ff"; str "0x10"] (uniform_device 4 0)); try reflexivity.
  - discriminate.
  - simpl. lia.
  - repeat constructor.
Defined.

(** ** What every command keeps *)

(** Take a successful run of a handler apart, one step at a time. *)
Ltac run_inv H :=
  repeat match type of H with
         | bind ?m _ = Done _ =>
             let E := fresh "E" in
             destruct m eqn:E; cbn [bind] in H; [|discriminate H]
         | (if ?b then _ else _) = Done _ =>
             let E := fresh "E" in destruct b eqn:E
         end;
  repeat match goal with
         | x : (_ * _)%type |- _ => destruct x
         end;
  cbn [fst snd] in *.

Lemma poke_length {A} (a a' : list A) i x :
  poke a i x = Done a' -> length a' = length a.
Proof.
  unfold poke. destruct (i <? length a)%nat; [|done].
  intros [= <-]. apply length_insert.
Qed.

Ltac pokes :=
  repeat match goal with
         | H : poke _ _ _ = Done _ |- _ => apply poke_length in H
         end.

Lemma paint_solid_length n : forall i v pixels leds pixels' leds',
  paint_solid n i v pixels leds = Done (pixels', leds') ->
  length pixels' = length pixels /\ length leds' = length leds.
Proof.
  induction n as [|n IH]; intros i v pixels leds pixels' leds' H;
    cbn [paint_solid] in H.
  - by injection H as <- <-.
  - run_inv H. apply IH in H as [H1 H2]. pokes. split; congruence.
Qed.

Lemma ramp_length n : forall i r g b rd gd bd leds leds',
  ramp n i r g b rd gd bd leds = Done leds' -> length leds' = length leds.
Proof.
  induction n as [|n IH]; intros i r g b rd gd bd leds leds' H; cbn [ramp] in H.
  - by injection H as <-.
  - run_inv H. apply IH in H. pokes. congruence.
Qed.

Lemma fill_gradient_RGB_span_length leds s c1 e c2 leds' :
  fill_gradient_RGB_span leds s c1 e c2 = Done leds' ->
  length leds' = length leds.
Proof.
  unfold fill_gradient_RGB_span. destruct (e <? s)%nat; apply ramp_length.
Qed.

Lemma fill_gradient_RGB_length leds n c1 c2 c3 leds' :
  fill_gradient_RGB leds n c1 c2 c3 = Done leds' -> length leds' = length leds.
Proof.
  unfold fill_gradient_RGB. intros H. run_inv H.
  apply fill_gradient_RGB_span_length in H.
  match goal with
  | K : fill_gradient_RGB_span _ _ _ _ _ = Done _ |- _ =>
      apply fill_gradient_RGB_span_length in K
  end.
  congruence.
Qed.

Lemma fill_segment_length N j : forall leds i idx pixels idx' pixels',
  fill_segment N j leds i idx pixels = Done (idx', pixels') ->
  length pixels' = length pixels.
Proof.
  induction j as [|j IH]; intros leds i idx pixels idx' pixels' H;
    cbn [fill_segment] in H.
  - by injection H as _ <-.
  - run_inv H; apply IH in H; pokes; congruence.
Qed.

Lemma fill_segments_length N n : forall i L leds idx pixels pixels',
  fill_segments N n i L leds idx pixels = Done pixels' ->
  length pixels' = length pixels.
Proof.
  induction n as [|n IH]; intros i L leds idx pixels pixels' H;
    cbn [fill_segments] in H.
  - by injection H as <-.
  - run_inv H. apply IH in H.
    match goal with
    | K : fill_segment _ _ _ _ _ _ = Done _ |- _ => apply fill_segment_length in K
    end.
    congruence.
Qed.

Lemma scan_tokens_length N fuel : forall values idx pixels sc,
  scan_tokens N fuel values idx pixels = Done sc ->
  length (sc_pixels sc) = length pixels.
Proof.
  induction fuel as [|fuel IH]; intros values idx pixels sc H;
    cbn [scan_tokens] in H.
  - by injection H as <-.
  - destruct (indexOf "," values) as [pos|]; [| by injection H as <-].
    run_inv H.
    + by injection H as <-.
    + injection H as <-. pokes. cbn [sc_pixels]. congruence.
    + apply IH in H. pokes. congruence.
Qed.

(** Every length fact a successful run gives. *)
Ltac lengths :=
  repeat match goal with
         | H : poke _ _ _ = Done _ |- _ => apply poke_length in H
         | H : copy_to_strip _ _ _ _ = Done _ |- _ =>
             apply copy_to_strip_length in H
         | H : fill_gradient_RGB _ _ _ _ _ = Done _ |- _ =>
             apply fill_gradient_RGB_length in H
         | H : fill_segments _ _ _ _ _ _ _ = Done _ |- _ =>
             apply fill_segments_length in H
         | H : paint_solid _ _ _ _ _ = Done (_, _) |- _ =>
             apply paint_solid_length in H as [? ?]
         | H : scan_tokens _ _ _ _ _ = Done _ |- _ =>
             apply scan_tokens_length in H
         end.



(** X20: when a pixel command answers with success and the namespace
    opened, the blob it saved holds exactly [num_pixels] words. *)
Theorem saved_blob_has_all_pixels (N : nat) (junk : list Z) (req : Request)
    (d d' : Device) :
  handleSolidColor N true junk req d = Done (updated, d')
  \/ handleGradient N true junk req d = Done (updated, d')
  \/ handleSetPixels N true req d = Done (updated, d') ->
  exists ws, saved_pixels d' = Some ws /\ length ws = N.
Proof.
  unfold saved_pixels, save_pixels, updated.
  intros [H | [H | H]].
  - unfold handleSolidColor in H.
    run_inv H; injection H; clear H; intros; subst; try discriminate.
    cbn [nvs]. rewrite lookup_insert_eq. eexists. split; [done|].
    lengths. rewrite length_take, length_resize in *. lia.
  - unfold handleGradient in H.
    run_inv H; injection H; clear H; intros; subst; try discriminate.
    cbn [nvs]. rewrite lookup_insert_eq. eexists. split; [done|].
    lengths. rewrite length_take, length_resize in *. lia.
  - unfold handleSetPixels in H.
    run_inv H; injection H; clear H; intros; subst; try discriminate.
    cbn [nvs]. rewrite lookup_insert_eq. eexists. split; [done|].
    lengths. rewrite length_take, length_replicate in *. lia.
Qed.

Lemma saved_blob_has_all_pixels_witness :
  exists ws,
    saved_pixels {| strip := replicate 3 (CRGB_code (Z.land (getNumber (str "7")) 16777215));
                    correction := correction (uniform_device 3 0);
                    nvs := save_pixels 3 true (replicate 3 (getNumber (str "7")))
                             (nvs (uniform_device 3 0)) |} = Some ws
    /\ length ws = 3%nat.
Proof.
  apply (saved_blob_has_all_pixels 3 [] (solid_request (str "7")) (uniform_device 3 0)).
  left. by apply handleSolidColor_valid.
Defined.

(** X21: the three pixel commands never touch the colour correction,
    neither the one applied nor the one saved. *)
Theorem pixel_commands_keep_correction (N : nat) (opens : bool) (junk : list Z)
    (req : Request) (d d' : Device) (msg : string) :
  handleSolidColor N opens junk req d = Done (msg, d')
  \/ handleGradient N opens junk req d = Done (msg, d')
  \/ handleSetPixels N opens req d = Done (msg, d') ->
  correction d' = correction d
  /\ forall o, load_correction o (nvs d') = load_correction o (nvs d).
Proof.
  assert (forall px, forall o,
            load_correction o (save_pixels N opens px (nvs d))
            = load_correction o (nvs d)) as Kp.
  { intros px o. apply load_correction_ext. intros key. unfold save_pixels.
    destruct opens; [|done]. by rewrite lookup_insert_ne. }
  intros [H | [H | H]].
  - unfold handleSolidColor in H.
    run_inv H; injection H as _ <-; cbn [correction nvs]; by auto.
  - unfold handleGradient in H.
    run_inv H; injection H as _ <-; cbn [correction nvs]; by auto.
  - unfold handleSetPixels in H.
    run_inv H; injection H as _ <-; cbn [correction nvs]; by auto.
Qed.

Lemma pixel_commands_keep_correction_witness :
  correction {| strip := replicate 3 (CRGB_code (Z.land (getNumber (str "7")) 16777215));
                correction := correction (uniform_device 3 0);
                nvs := save_pixels 3 true (replicate 3 (getNumber (str "7")))
                         (nvs (uniform_device 3 0)) |}
  = correction (uniform_device 3 0)
  /\ forall o,
       load_correction o
         (nvs {| strip := replicate 3 (CRGB_code (Z.land (getNumber (str "7")) 16777215));
                 correction := correction (uniform_device 3 0);
                 nvs := save_pixels 3 true (replicate 3 (getNumber (str "7")))
                          (nvs (uniform_device 3 0)) |})
       = load_correction o (nvs (uniform_device 3 0)).
Proof.
  apply (pixel_commands_keep_correction 3 true [] (solid_request (str "7"))
           (uniform_device 3 0) _ updated).
  left. by apply handleSolidColor_valid.
Defined.

(** X22: the correction command never touches the strip or the saved
    colours: the next boot redraws the same pixels. *)
Theorem correction_keeps_pixels (N : nat) (opens : bool) (req : Request)
    (d d' : Device) (msg : string) :
  handleColorCorrection opens req d = Done (msg, d') ->
  strip d' = strip d
  /\ saved_pixels d' = saved_pixels d
  /\ forall o, setup_pixels N o (nvs d') = setup_pixels N o (nvs d).
Proof.
  intros H. unfold handleColorCorrection in H.
  run_inv H; injection H as _ <-; cbn [strip nvs]; try done.
  assert (save_correction opens
            (to_uint8 (constrain (getNumber (trim (arg req "correctionRed"))) 0 255))
            (to_uint8 (constrain (getNumber (trim (arg req "correctionGreen"))) 0 255))
            (to_uint8 (constrain (getNumber (trim (arg req "correctionBlue"))) 0 255))
            (nvs d) !! (ns_pixels, key_color_vals)
          = nvs d !! (ns_pixels, key_color_vals)) as K.
  { unfold save_correction. destruct opens; [|done].
    by rewrite !lookup_insert_ne. }
  split; [done|]. split.
  - unfold saved_pixels. cbn [nvs]. by rewrite K.
  - intros o. by apply setup_pixels_ext.
Qed.

Lemma correction_keeps_pixels_witness :
  strip {| strip := strip (uniform_device 3 7);
           correction := CRGB_rgb 1 2 3;
           nvs := save_correction true 1 2 3 (nvs (uniform_device 3 7)) |}
  = strip (uniform_device 3 7)
  /\ saved_pixels {| strip := strip (uniform_device 3 7);
                     correction := CRGB_rgb 1 2 3;
                     nvs := save_correction true 1 2 3 (nvs (uniform_device 3 7)) |}
     = saved_pixels (uniform_device 3 7)
  /\ forall o,
       setup_pixels 3 o
         (nvs {| strip := strip (uniform_device 3 7);
                 correction := CRGB_rgb 1 2 3;
                 nvs := save_correction true 1 2 3 (nvs (uniform_device 3 7)) |})
       = setup_pixels 3 o (nvs (uniform_device 3 7)).
Proof.
  apply (correction_keeps_pixels 3 true
           [("correctionRed"%string, str "1"); ("correctionGreen"%string, str "2");
            ("correctionBlue"%string, str "3")]
           (uniform_device 3 7) _ "Color correction values applied.").
  reflexivity.
Defined.

(** X23: when the namespace does not open, a handler does to the strip
    and to the applied correction exactly what it does when it opens, and
    leaves the store as it was. *)
Theorem store_failure_keeps_store (N : nat) (junk : list Z) (req : Request)
    (d : Device) :
  let unsaved (o : Outcome) : Outcome :=
    match o with
    | Done (msg, d') =>
        Done (msg, {| strip := strip d'; correction := correction d'; nvs := nvs d |})
    | Trap f => Trap f
    end in
  handleColorCorrection false req d = unsaved (handleColorCorrection true req d)
  /\ handleSolidColor N false junk req d = unsaved (handleSolidColor N true junk req d)
  /\ handleGradient N false junk req d = unsaved (handleGradient N true junk req d)
  /\ handleSetPixels N false req d = unsaved (handleSetPixels N true req d).
Proof.
  intros unsaved. subst unsaved. destruct d as [leds corr store].
  unfold handleColorCorrection, handleSolidColor, handleGradient, handleSetPixels.
  repeat split;
    repeat match goal with
           | |- context [bind ?m _] =>
               destruct m as [?|?]; cbn [bind]; try reflexivity
           | |- context [if ?b then _ else _] => destruct b; try reflexivity
           end.
Qed.

(** X24: a handler that answers anything but its success message has
    changed nothing: strip, applied correction and store are as before. *)
Theorem failed_command_changes_nothing (N : nat) (opens : bool) (junk : list Z)
    (req : Request) (d d' : Device) (msg : string) :
  (handleColorCorrection opens req d = Done (msg, d')
   /\ msg <> "Color correction values applied."%string)
  \/ ((handleSolidColor N opens junk req d = Done (msg, d')
       \/ handleGradient N opens junk req d = Done (msg, d')
       \/ handleSetPixels N opens req d = Done (msg, d'))
      /\ msg <> updated) ->
  d' = d.
Proof.
  intros [[H Hm] | [[H | [H | H]] Hm]].
  - unfold handleColorCorrection in H.
    run_inv H; injection H as <- <-; done.
  - unfold handleSolidColor in H.
    run_inv H; injection H as <- <-; done.
  - unfold handleGradient in H.
    run_inv H; injection H as <- <-; done.
  - unfold handleSetPixels in H.
    run_inv H; injection H as <- <-; done.
Qed.

Lemma failed_command_changes_nothing_witness : uniform_device 3 0 = uniform_device 3 0.
Proof.
  apply (failed_command_changes_nothing 3 true [] (pixels_request (str "1,x"))
           (uniform_device 3 0) (uniform_device 3 0)
           "Error: One or more values are invalid. Please enter only decimal or hex values.").
  right. split; [right; right; reflexivity | discriminate].
Defined.

(** ** The token loop ends *)

(** X25: the [while] loop of [handleSetPixels] never needs more rounds
    than the string has characters: with any number of rounds from that
    on it gives the same result, the one the handler uses. *)
Theorem token_loop_ends (N fuel : nat) (values : Str) (idx : nat)
    (pixels : list Z) :
  (length values <= fuel)%nat ->
  scan_tokens N fuel values idx pixels
  = scan_tokens N (length values) values idx pixels.
Proof. intros H. by apply scan_tokens_fuel. Qed.

Lemma token_loop_ends_witness :
  scan_tokens 4 20 (str "1,2,x,4") 0 (replicate 4 0)
  = scan_tokens 4 (length (str "1,2,x,4")) (str "1,2,x,4") 0 (replicate 4 0).
Proof.
  apply (token_loop_ends 4 20 (str "1,2,x,4") 0 (replicate 4 0)).
  simpl. lia.
Defined.

(** ** The served page *)

Lemma byte_forall (f : Z -> bool) :
  forallb f (map Z.of_nat (seq 0 256)) = true ->
  forall v, 0 <= v < 256 -> f v = true.
Proof.
  intros H v Hv. rewrite forallb_forall in H. apply H.
  apply in_map_iff. exists (Z.to_nat v). split; [lia|].
  apply in_seq. lia.
Qed.

Lemma to_uint8_range v : 0 <= to_uint8 v < 256.
Proof. unfold to_uint8. apply Z.mod_pos_bound. lia. Qed.

Lemma String_uchar_byte v : String_uchar (to_uint8 v) = String_uchar v.
Proof. unfold String_uchar. by rewrite to_uint8_idem. Qed.

(** The text of a byte is a valid number that parses back to the byte,
    and has no ['%'] in it. *)
Lemma String_uchar_facts v :
  isValidNumber (String_uchar v) = true
  /\ getNumber (trim (String_uchar v)) = to_uint8 v
  /\ forallb (fun c => negb (Ascii.eqb c "%")) (String_uchar v) = true.
Proof.
  rewrite <- String_uchar_byte.
  pose proof (byte_forall
    (fun u => isValidNumber (String_uchar u)
              && (getNumber (trim (String_uchar u)) =? u)
              && forallb (fun c => negb (Ascii.eqb c "%")) (String_uchar u))
    ltac:(by vm_compute) (to_uint8 v) (to_uint8_range v)) as H.
  cbv beta in H. apply andb_prop in H as [[H1 H2]%andb_prop H3].
  split; [done|]. split; [|done]. by apply Z.eqb_eq.
Qed.

Lemma load_correction_bytes opens store :
  let '(r, g, b) := load_correction opens store in
  to_uint8 r = r /\ to_uint8 g = g /\ to_uint8 b = b.
Proof.
  unfold load_correction, getUChar. destruct opens; [|done].
  repeat split; repeat case_match; try done; apply to_uint8_idem.
Qed.

(** X26: the three numbers the index page is filled with, sent back
    through the correction form as they are shown, are accepted and
    apply exactly the correction that is saved. *)
Theorem shown_correction_resubmits (opens o : bool) (store : Nvs) (d : Device) :
  let '(r, g, b) := load_correction o store in
  exists d',
    handleColorCorrection opens
      [("correctionRed"%string, String_uchar r);
       ("correctionGreen"%string, String_uchar g);
       ("correctionBlue"%string, String_uchar b)] d
    = Done ("Color correction values applied."%string, d')
    /\ correction d' = mkCRGB r g b.
Proof.
  pose proof (load_correction_bytes o store) as Hb.
  destruct (load_correction o store) as [[r g] b]. destruct Hb as (Hr & Hg & Hb).
  destruct (String_uchar_facts r) as (Vr & Nr & _).
  destruct (String_uchar_facts g) as (Vg & Ng & _).
  destruct (String_uchar_facts b) as (Vb & Nb & _).
  unfold handleColorCorrection. cbn [hasArg existsb arg fst].
  rewrite !String.eqb_refl. cbn [orb andb String.eqb Ascii.eqb Bool.eqb].
  rewrite !isValidNumber_trim, Vr, Vg, Vb, Nr, Ng, Nb, Hr, Hg, Hb. cbn [andb].
  eexists. split; [reflexivity|]. cbn [correction].
  assert (forall u, to_uint8 u = u -> to_uint8 (to_uint8 (constrain u 0 255)) = u) as K.
  { intros u Hu. pose proof (to_uint8_range u). rewrite constrain_byte.
    unfold clamp_byte. rewrite Z.min_l, Z.max_r by lia. by rewrite Hu. }
  unfold CRGB_rgb. by rewrite !K.
Qed.

Lemma startsWith_app p s : startsWith (p ++ s) p = true.
Proof.
  induction p as [|c p IH]; [done|]. cbn [app startsWith].
  by rewrite Ascii.eqb_refl.
Qed.

Lemma startsWith_In s p c : startsWith s p = true -> In c p -> In c s.
Proof.
  revert s. induction p as [|x p IH]; intros s H Hin; [done|].
  destruct s as [|y s]; [done|]. cbn [startsWith] in H.
  destruct (Ascii.eqb_spec y x) as [-> | _]; [|done].
  destruct Hin as [-> | Hin]; [by left | right; by apply IH].
Qed.

Lemma plain_no_percent s : plain s -> ~ In "%"%char s.
Proof.
  unfold plain. rewrite forallb_forall. intros H Hin. by apply H in Hin.
Qed.

Lemma replace_from_skip find repl x s :
  replace_from (length x) find repl (x ++ s) = replace_from 0 find repl s.
Proof.
  induction x as [|c x IH]; [|exact IH].
  cbn [length app]. by destruct s.
Qed.

(** Text without ['%'] is copied as it is when the pattern starts with
    ['%']. *)
Lemma replace_from_plain f repl pre s :
  plain pre ->
  replace_from 0 ("%"%char :: f) repl (pre ++ s)
  = pre ++ replace_from 0 ("%"%char :: f) repl s.
Proof.
  unfold plain. induction pre as [|c pre IH]; [done|].
  cbn [forallb app replace_from startsWith].
  intros [Hc Hp]%andb_prop. apply negb_true_iff in Hc. rewrite Hc.
  by rewrite IH.
Qed.

Lemma replace_from_plain_end f repl pre :
  plain pre -> replace_from 0 ("%"%char :: f) repl pre = pre.
Proof.
  intros H. rewrite <- (app_nil_r pre) at 1.
  rewrite replace_from_plain by done. by rewrite app_nil_r.
Qed.

(** An occurrence of the pattern is replaced and stepped over. *)
Lemma replace_from_hit c f repl s :
  replace_from 0 (c :: f) repl ((c :: f) ++ s)
  = repl ++ replace_from 0 (c :: f) repl s.
Proof.
  cbn [app replace_from].
  assert (startsWith (c :: f ++ s) (c :: f) = true) as ->
    by apply (startsWith_app (c :: f) s).
  replace (length (c :: f) - 1)%nat with (length f) by (cbn [length]; lia).
  by rewrite replace_from_skip.
Qed.

(** A ['%'] followed by text without ['%'] starts no occurrence of a
    pattern that has a second ['%']. *)
Lemma replace_from_last_percent f repl s :
  In "%"%char f -> plain s ->
  replace_from 0 ("%"%char :: f) repl ("%"%char :: s) = "%"%char :: s.
Proof.
  intros Hf Hs. cbn [replace_from].
  destruct (startsWith ("%"%char :: s) ("%"%char :: f)) eqn:E.
  - cbn [startsWith] in E. rewrite Ascii.eqb_refl in E.
    apply (startsWith_In _ _ "%"%char) in E; [|done].
    by apply plain_no_percent in E.
  - by rewrite replace_from_plain_end.
Qed.

Lemma plain_app a b : plain a -> plain b -> plain (a ++ b).
Proof. unfold plain. intros Ha Hb. by rewrite forallb_app, Ha, Hb. Qed.

(** A ['%'] whose next character is not ['C'] starts no placeholder. *)
Lemma replace_from_stray_percent f repl s :
  startsWith s (str "C") = false ->
  replace_from 0 ("%"%char :: "C"%char :: f) repl ("%"%char :: s)
  = "%"%char :: replace_from 0 ("%"%char :: "C"%char :: f) repl s.
Proof.
  intros Hs. cbn [replace_from startsWith]. rewrite Ascii.eqb_refl.
  destruct s as [|c s]; [done|].
  cbn [startsWith str list_ascii_of_string] in Hs.
  by destruct (Ascii.eqb c "C").
Qed.

(** The rest of the page after the red placeholder is left alone by the
    replacement of the red placeholder. *)
Lemma red_leaves_rest repl mid1 mid2 post :
  plain mid1 -> plain mid2 -> plain post ->
  startsWith mid2 (str "C") = false ->
  replace_from 0 (str "%CORR_RED%") repl
    (mid1 ++ str "%CORR_GREEN%" ++ mid2 ++ str "%CORR_BLUE%" ++ post)
  = mid1 ++ str "%CORR_GREEN%" ++ mid2 ++ str "%CORR_BLUE%" ++ post.
Proof.
  intros H1 H2 Hp Hc.
  change (str "%CORR_RED%") with ("%"%char :: "C"%char :: str "ORR_RED%").
  rewrite replace_from_plain by done. f_equal.
  change (replace_from 0 ("%"%char :: "C"%char :: str "ORR_RED%") repl
            (str "%CORR_GREEN%" ++ mid2 ++ str "%CORR_BLUE%" ++ post))
    with (str "%CORR_GREEN"
          ++ replace_from 0 ("%"%char :: "C"%char :: str "ORR_RED%") repl
               ("%"%char :: mid2 ++ str "%CORR_BLUE%" ++ post)).
  change (str "%CORR_GREEN%" ++ ?x) with (str "%CORR_GREEN" ++ "%"%char :: x).
  f_equal.
  rewrite replace_from_stray_percent by (by destruct mid2).
  f_equal. rewrite replace_from_plain by done. f_equal.
  change (replace_from 0 ("%"%char :: "C"%char :: str "ORR_RED%") repl
            (str "%CORR_BLUE%" ++ post))
    with (str "%CORR_BLUE"
          ++ replace_from 0 ("%"%char :: "C"%char :: str "ORR_RED%") repl
               ("%"%char :: post)).
  change (str "%CORR_BLUE%" ++ post) with (str "%CORR_BLUE" ++ "%"%char :: post).
  f_equal. apply replace_from_last_percent; [|done].
  cbn. tauto.
Qed.

Lemma green_leaves_rest repl mid2 post :
  plain mid2 -> plain post ->
  replace_from 0 (str "%CORR_GREEN%") repl (mid2 ++ str "%CORR_BLUE%" ++ post)
  = mid2 ++ str "%CORR_BLUE%" ++ post.
Proof.
  intros H2 Hp.
  change (str "%CORR_GREEN%") with ("%"%char :: str "CORR_GREEN%").
  rewrite replace_from_plain by done. f_equal.
  change (replace_from 0 ("%"%char :: str "CORR_GREEN%") repl
            (str "%CORR_BLUE%" ++ post))
    with (str "%CORR_BLUE"
          ++ replace_from 0 ("%"%char :: str "CORR_GREEN%") repl ("%"%char :: post)).
  change (str "%CORR_BLUE%" ++ post) with (str "%CORR_BLUE" ++ "%"%char :: post).
  f_equal. apply replace_from_last_percent; [|done].
  cbn. tauto.
Qed.

(** One placeholder after text without ['%']. *)
Lemma replace_first f repl pre tail :
  plain pre ->
  replace (pre ++ ("%"%char :: f) ++ tail) ("%"%char :: f) repl
  = pre ++ repl ++ replace_from 0 ("%"%char :: f) repl tail.
Proof.
  intros Hp. unfold replace.
  by rewrite replace_from_plain, replace_from_hit by done.
Qed.

(** X27: for an index page made of text without ['%'] around one red,
    one green and one blue placeholder in that order (the text between
    green and blue not starting with ['C']), [handleRoot] answers 200 with
    the page in which each placeholder is the decimal text of the saved
    correction byte, or of 255 where none is saved. *)
Theorem index_page_is_filled_in (fs : Spiffs) (opens : bool) (store : Nvs)
    (pre mid1 mid2 post : Str) :
  fs !! str "/index.html"
    = Some (pre ++ str "%CORR_RED%" ++ mid1 ++ str "%CORR_GREEN%" ++ mid2
                ++ str "%CORR_BLUE%" ++ post) ->
  plain pre -> plain mid1 -> plain mid2 -> plain post ->
  startsWith mid2 (str "C") = false ->
  handleRoot fs opens store
  = let '(r, g, b) := load_correction opens store in
    (200, "text/html"%string,
     pre ++ String_uchar r ++ mid1 ++ String_uchar g ++ mid2
         ++ String_uchar b ++ post).
Proof.
  intros Hf Hpre H1 H2 Hpost Hc. unfold handleRoot, serveFile.
  change (endsWith (str "/") (str "/")) with true. cbv iota.
  change (str "/" ++ str "index.html") with (str "/index.html").
  rewrite Hf. rewrite bool_decide_eq_true_2 by done.
  destruct (load_correction opens store) as [[r g] b].
  destruct (String_uchar_facts r) as (_ & _ & Pr).
  destruct (String_uchar_facts g) as (_ & _ & Pg).
  destruct (String_uchar_facts b) as (_ & _ & Pb).
  do 2 f_equal.
  change (str "%CORR_RED%") with ("%"%char :: str "CORR_RED%") at 1 2.
  rewrite replace_first by done.
  change ("%"%char :: str "CORR_RED%") with (str "%CORR_RED%").
  rewrite red_leaves_rest by done.
  rewrite !(app_assoc pre), !(app_assoc (pre ++ String_uchar r)).
  change (str "%CORR_GREEN%") with ("%"%char :: str "CORR_GREEN%") at 1 2.
  rewrite replace_first by (repeat (first [done | apply plain_app])).
  change ("%"%char :: str "CORR_GREEN%") with (str "%CORR_GREEN%").
  rewrite green_leaves_rest by done.
  rewrite !(app_assoc ((pre ++ String_uchar r) ++ mid1)),
    !(app_assoc (((pre ++ String_uchar r) ++ mid1) ++ String_uchar g)).
  change (str "%CORR_BLUE%") with ("%"%char :: str "CORR_BLUE%").
  rewrite replace_first by (repeat (first [done | apply plain_app])).
  rewrite replace_from_plain_end by done.
  by rewrite <- !app_assoc.
Qed.

Lemma index_page_is_filled_in_witness :
  handleRoot
    (<[str "/index.html"
       := str "r=" ++ str "%CORR_RED%" ++ str " g=" ++ str "%CORR_GREEN%" ++ str " b="
              ++ str "%CORR_BLUE%" ++ str "."]> ∅)
    true (nvs (uniform_device 2 0))
  = let '(r, g, b) := load_correction true (nvs (uniform_device 2 0)) in
    (200, "text/html"%string,
     str "r=" ++ String_uchar r ++ str " g=" ++ String_uchar g ++ str " b="
         ++ String_uchar b ++ str ".").
Proof.
  apply (index_page_is_filled_in _ true (nvs (uniform_device 2 0))
           (str "r=") (str " g=") (str " b=") (str ".")); reflexivity.
Defined.

(** X28: [serveFile] treats any path ending in ['/'] as the [index.html]
    of that folder, and [handleRoot] answers 200 when SPIFFS holds
    [/index.html] and 404 when it does not. *)
Theorem folder_serves_its_index (fs : Spiffs) (opens : bool) (store : Nvs)
    (path : Str) :
  serveFile fs opens store (path ++ str "/")
  = serveFile fs opens store (path ++ str "/index.html")
  /\ fst (fst (handleRoot fs opens store))
     = match fs !! str "/index.html" with Some _ => 200 | None => 404 end.
Proof.
  split.
  - unfold serveFile at 1.
    assert (endsWith (path ++ str "/") (str "/") = true) as ->
      by (unfold endsWith; by rewrite rev_app_distr).
    rewrite <- app_assoc.
    change (str "/" ++ str "index.html") with (str "/index.html").
    unfold serveFile.
    assert (endsWith (path ++ str "/index.html") (str "/") = false) as ->
      by (unfold endsWith; by rewrite rev_app_distr).
    done.
  - unfold handleRoot, serveFile.
    change (endsWith (str "/") (str "/")) with true. cbv iota.
    change (str "/" ++ str "index.html") with (str "/index.html").
    destruct (fs !! str "/index.html"); [|done].
    rewrite bool_decide_eq_true_2 by done.
    by destruct (load_correction opens store) as [[r g] b].
Qed.
